(** * DreamForge Studio: prompt construction and the generation handler

    A shallow embedding of [app.py] (the full variant) and [app_vercel.py]
    (the demo variant), and the properties of their request handling:
    dimension normalisation, seed resolution, prompt enhancement, style
    presets, the empty-prompt guard, the pipeline call, failure handling and
    the output file. *)

From Stdlib Require Import ZArith NArith List String Ascii Lia DecimalString.
From stdpp Require Import base option list gmap.
Import ListNotations.

Local Open Scope Z_scope.

(** ** Python values

    A Python [str] is a sequence of Unicode code points; it is modelled as
    the list of their numbers.  The functions below are the methods of [str]
    that the two files use. *)

Module Py.

Abbreviation str := (list N).

(** Literals are written as Rocq strings, which hold the UTF-8 bytes of the
    text; [utf8] decodes them into code points, so that the literals of the
    source can be written as they are there. *)
Fixpoint utf8_go (need : nat) (acc : N) (bs : list N) : str :=
  match bs with
  | [] => []
  | b :: bs' =>
      match need with
      | O =>
          if (b <? 128)%N then b :: utf8_go 0 0%N bs'
          else if (b <? 224)%N then utf8_go 1 (N.land b 31) bs'
          else if (b <? 240)%N then utf8_go 2 (N.land b 15) bs'
          else utf8_go 3 (N.land b 7) bs'
      | S O => (acc * 64 + N.land b 63)%N :: utf8_go 0 0%N bs'
      | S n => utf8_go n (acc * 64 + N.land b 63)%N bs'
      end
  end.

Definition utf8 (s : string) : str :=
  utf8_go 0 0%N (map N_of_ascii (list_ascii_of_string s)).

(** The characters a Rocq literal cannot hold as they are. *)
Definition dquote : str := [34%N].
Definition newline : str := [10%N].

(** Truth value of a string: [not s] holds of the empty string only. *)
Definition truthy (s : str) : bool :=
  match s with [] => false | _ :: _ => true end.

(** [str.isspace] on one code point: the code points CPython's
    [_PyUnicode_IsWhitespace] lists. *)
Definition isspace (c : N) : bool :=
  ((9 <=? c) && (c <=? 13) || (28 <=? c) && (c <=? 32)
   || (c =? 133) || (c =? 160) || (c =? 5760)
   || (8192 <=? c) && (c <=? 8202)
   || (c =? 8232) || (c =? 8233) || (c =? 8239) || (c =? 8287)
   || (c =? 12288))%N.

(** [s.lstrip()], [s.rstrip()] and [s.strip()] with no argument. *)
Fixpoint lstrip (s : str) : str :=
  match s with
  | [] => []
  | c :: s' => if isspace c then lstrip s' else s
  end.

Definition rstrip (s : str) : str := rev (lstrip (rev s)).

Definition strip (s : str) : str := rstrip (lstrip s).

(** [s.lower()].  The upper-case ASCII letters, and the two code points
    outside ASCII whose lower-case form holds an ASCII letter (U+0130, which
    lowers to "i" followed by U+0307, and the Kelvin sign U+212A, which
    lowers to "k"), are lowered as Python does.  Every other cased code point
    lowers to code points outside ASCII; they are left as they are, which
    changes no test of the form [term in s.lower()] for an ASCII [term], the
    only use the program makes of [lower]. *)
Definition lower_char (c : N) : str :=
  if ((65 <=? c) && (c <=? 90))%N then [(c + 32)%N]
  else if (c =? 304)%N then [105%N; 775%N]
  else if (c =? 8490)%N then [107%N]
  else [c].

Definition lower (s : str) : str := flat_map lower_char s.

(** [s.startswith(p)]. *)
Fixpoint startswith (p s : str) : bool :=
  match p, s with
  | [], _ => true
  | _ :: _, [] => false
  | a :: p', b :: s' => (a =? b)%N && startswith p' s'
  end.

(** [sub in s]: [sub] occurs in [s] as a contiguous run. *)
Fixpoint contains (sub s : str) : bool :=
  startswith sub s ||
  match s with
  | [] => false
  | _ :: s' => contains sub s'
  end.

(** [sep.join(items)]. *)
Fixpoint join (sep : str) (items : list str) : str :=
  match items with
  | [] => []
  | [x] => x
  | x :: rest => x ++ sep ++ join sep rest
  end.

(** [str(n)] and [f"{n}"] for an [int]: decimal digits, a minus sign for a
    negative number. *)
Definition str_of_int (n : Z) : str :=
  map N_of_ascii (list_ascii_of_string (NilZero.string_of_int (Z.to_int n))).

(** A decimal number padded with zeros on the left to [width] digits, as
    [strftime] prints the fields of a date. *)
Definition zero_pad (width : nat) (n : N) : str :=
  let digits := str_of_int (Z.of_N n) in
  repeat 48%N (width - length digits) ++ digits.

End Py.

Import Py.

(** ** The file system and exceptions

    The part of the operating system the full variant touches: a flat map
    from paths to directories and files.  Failures of the device itself (a
    full disk, missing permissions) are not modelled. *)

Module Os.

(** A Python exception, with its class name and [str(e)]: an instance of
    [Exception], which the [except Exception] clauses of the handlers
    catch. *)
Record Exception := mkException { exc_class : str; exc_str : str }.

Section FileSystem.
Context {Image : Type}.

Inductive Node := Dir | File (content : Image).

(** [os.path.join(a, b)] for a relative [b], with the POSIX separator. *)
Definition path_join (a b : str) : str := a ++ utf8 "/" ++ b.

(** [os.makedirs(name, exist_ok=True)]: creates the directory when the path
    is free, accepts a directory that is there, and raises when the path is
    a file. *)
Definition makedirs_exist_ok (name : str) (fs : gmap str Node)
  : Exception + gmap str Node :=
  match fs !! name with
  | None => inr (<[name := Dir]> fs)
  | Some Dir => inr fs
  | Some (File _) =>
      inl (mkException (utf8 "FileExistsError")
             (utf8 "[Errno 17] File exists: '" ++ name ++ utf8 "'"))
  end.

(** [image.save(path)]: writes the file, replacing one of the same name, and
    raises when the path is a directory. *)
Definition save (image : Image) (path : str) (fs : gmap str Node)
  : Exception + gmap str Node :=
  match fs !! path with
  | Some Dir =>
      inl (mkException (utf8 "IsADirectoryError")
             (utf8 "[Errno 21] Is a directory: '" ++ path ++ utf8 "'"))
  | _ => inr (<[path := File image]> fs)
  end.

End FileSystem.

Arguments Node : clear implicits.

End Os.

(** A reading of [datetime.now()]. *)
Record DateTime := mkDateTime {
  year : N; month : N; day : N; hour : N; minute : N; second : N
}.

(** [dt.strftime("%Y%m%d_%H%M%S")]: the year on four digits, which is what
    every platform prints for the years from 1000 on, and the other fields
    on two. *)
Definition strftime_Ymd_HMS (dt : DateTime) : str :=
  zero_pad 4 (year dt) ++ zero_pad 2 (month dt) ++ zero_pad 2 (day dt)
  ++ utf8 "_"
  ++ zero_pad 2 (hour dt) ++ zero_pad 2 (minute dt) ++ zero_pad 2 (second dt).

(** ** The full variant, [app.py] *)

Module App.

(** [enhance_prompt], lines 199-220. *)
Definition enhancers : list str :=
  map utf8
    ["high quality"; "detailed"; "professional"; "artistic";
     "4k resolution"; "sharp focus"; "well-composed"]%string.

Definition enhance_prompt (prompt : str) (use_enhancer : bool) : str :=
  if negb use_enhancer || negb (truthy (strip prompt)) then prompt
  else
    let prompt_lower := lower prompt in
    let missing_enhancers :=
      List.filter (fun e => negb (contains e prompt_lower)) enhancers in
    match missing_enhancers with
    | _ :: _ =>
        let selected_enhancers := take 3 missing_enhancers in
        prompt ++ utf8 ", " ++ join (utf8 ", ") selected_enhancers
    | [] => prompt
    end.

(** The table of style presets, lines 238-247 of [generate_image_gradio]. *)
Definition style_prompts : gmap str str :=
  list_to_map
    [ (utf8 "📸 Photorealistic", utf8 ", photorealistic, realistic, detailed, high quality");
      (utf8 "🎨 Artistic", utf8 ", artistic, painting style, creative, expressive");
      (utf8 "🌟 Cinematic", utf8 ", cinematic, dramatic lighting, movie scene, epic");
      (utf8 "✨ Fantasy", utf8 ", fantasy art, magical, ethereal, mystical");
      (utf8 "🔮 Sci-Fi", utf8 ", science fiction, futuristic, high-tech, cyberpunk");
      (utf8 "🏞️ Landscape", utf8 ", landscape photography, natural lighting, scenic");
      (utf8 "👤 Portrait", utf8 ", portrait, professional headshot, well-lit face");
      (utf8 "🎭 Vintage", utf8 ", vintage style, retro, classic, nostalgic") ].

(** "Apply style preset", lines 236-249 of [generate_image_gradio]: the
    value of [prompt] after the block. *)
Definition apply_style_preset (prompt style_preset : str) : str :=
  if bool_decide (style_preset <> utf8 "None") then
    match style_prompts !! style_preset with
    | Some suffix => prompt ++ suffix
    | None => prompt
    end
  else prompt.

(** The choices of the style drop-down, lines 584-587. *)
Definition style_choices : list str :=
  map utf8
    ["None"; "📸 Photorealistic"; "🎨 Artistic"; "🌟 Cinematic";
     "✨ Fantasy"; "🔮 Sci-Fi"; "🏞️ Landscape"; "👤 Portrait"; "🎭 Vintage"]%string.

(** [width // 8 * 8] clamped, lines 136-137 of [generate_image]. *)
Definition validate_dimension (dim : Z) : Z :=
  Z.max 64 (Z.min 1024 (dim / 8 * 8)).

(** *** What the program takes from outside *)

(** [torch.Generator(device=d).manual_seed(s)]: a generator of its own,
    determined by the device and the seed. *)
Record Generator := manual_seed { gen_device : str; gen_seed : Z }.

(** The seeds [manual_seed] takes: torch reads the seed as an unsigned
    64-bit number or, failing that, as a signed one, and raises on a number
    that is neither. *)
Definition manual_seed_accepts (seed : Z) : bool :=
  (- 2 ^ 63 <=? seed) && (seed <? 2 ^ 64).

Definition manual_seed_overflow : Os.Exception :=
  Os.mkException (utf8 "RuntimeError") (utf8 "Overflow when unpacking long").

(** The keyword arguments of one call of [self.pipeline], lines 152-160. *)
Record PipelineCall {Float : Type} := mkPipelineCall {
  call_prompt : str;
  call_negative_prompt : option str;
  call_width : Z;
  call_height : Z;
  call_num_inference_steps : Z;
  call_guidance_scale : Float;
  call_generator : option Generator
}.
Arguments PipelineCall : clear implicits.

(** The libraries and devices behind the program.  A Python [float] is kept
    abstract, with the three operations the program applies to one; the two
    clocks are given by what they show at each successive reading; the
    pipeline maps the arguments of a call and the state of torch's default
    generator (which it draws from when it is handed no generator) to an
    image or an exception, and a new state. *)
Class Externals := {
  Image : Type;
  Float : Type;
  Rng : Type;
  float_sub : Float -> Float -> Float;
  float_round : Float -> Z -> Float;
  float_format_2f : Float -> str;
  float_7_5 : Float;
  cuda_is_available : bool;
  randint : Z -> Z -> Rng -> Z * Rng;
  time_at : nat -> Float;
  now_at : nat -> DateTime;
  pipeline : PipelineCall Float -> Rng -> (Os.Exception + Image) * Rng
}.

(** [torch.randint(low, high, ...)] draws from [low, high). *)
Class ExternalsLaws `{Externals} := {
  randint_range :
    forall low high g, low < high -> low <= (randint low high g).1 < high
}.

Section Handler.
Context `{Externals}.

Inductive Level := INFO | WARNING | ERROR.

Record LogRecord := mkLogRecord { levelname : Level; message : str }.

(** The state the handlers run in.  [pipeline_calls] is the trace of the
    calls made to the pipeline, kept to count them, and
    [pipeline_call_clock] holds, for each call of the trace, how many times
    the clocks had been read when it was made. *)
Record World := mkWorld {
  torch_rng : Rng;
  clock_reads : nat;
  log : list LogRecord;
  fs : gmap str (Os.Node Image);
  pipeline_calls : list (PipelineCall Float);
  pipeline_call_clock : list nat
}.

(** A statement returns a value or raises, and leaves a new state. *)
Inductive Outcome (A : Type) := Returned (a : A) | Raised (e : Os.Exception).
#[global] Arguments Returned {A} a.
#[global] Arguments Raised {A} e.

Definition M (A : Type) : Type := World -> Outcome A * World.

#[global] Instance M_ret : MRet M := fun A a w => (Returned a, w).

#[global] Instance M_bind : MBind M := fun A B f c w =>
  match c w with
  | (Returned a, w') => f a w'
  | (Raised e, w') => (Raised e, w')
  end.

Definition raise {A : Type} (e : Os.Exception) : M A :=
  fun w => (Raised e, w).

Definition try_except {A : Type} (body : M A) (handler : Os.Exception -> M A)
  : M A :=
  fun w =>
    match body w with
    | (Returned a, w') => (Returned a, w')
    | (Raised e, w') => handler e w'
    end.

Definition logger_info (msg : str) : M unit := fun w =>
  (Returned tt,
   mkWorld (torch_rng w) (clock_reads w) (log w ++ [mkLogRecord INFO msg])
     (fs w) (pipeline_calls w) (pipeline_call_clock w)).

Definition logger_error (msg : str) : M unit := fun w =>
  (Returned tt,
   mkWorld (torch_rng w) (clock_reads w) (log w ++ [mkLogRecord ERROR msg])
     (fs w) (pipeline_calls w) (pipeline_call_clock w)).

Definition torch_randint (low high : Z) : M Z := fun w =>
  let (value, g) := randint low high (torch_rng w) in
  (Returned value,
   mkWorld g (clock_reads w) (log w) (fs w) (pipeline_calls w)
     (pipeline_call_clock w)).

Definition time_time : M Float := fun w =>
  (Returned (time_at (clock_reads w)),
   mkWorld (torch_rng w) (S (clock_reads w)) (log w) (fs w)
     (pipeline_calls w) (pipeline_call_clock w)).

Definition datetime_now : M DateTime := fun w =>
  (Returned (now_at (clock_reads w)),
   mkWorld (torch_rng w) (S (clock_reads w)) (log w) (fs w)
     (pipeline_calls w) (pipeline_call_clock w)).

(** [torch.Generator(device=device).manual_seed(int(seed))], line 141. *)
Definition torch_manual_seed (device : str) (seed : Z) : M Generator :=
  if manual_seed_accepts seed then mret (manual_seed device seed)
  else raise manual_seed_overflow.

(** [self.pipeline(...).images[0]]. *)
Definition self_pipeline (call : PipelineCall Float) : M Image := fun w =>
  let (result, g) := pipeline call (torch_rng w) in
  let w' :=
    mkWorld g (clock_reads w) (log w) (fs w) (pipeline_calls w ++ [call])
      (pipeline_call_clock w ++ [clock_reads w]) in
  match result with
  | inl e => (Raised e, w')
  | inr image => (Returned image, w')
  end.

Definition update_fs
  (op : gmap str (Os.Node Image) -> Os.Exception + gmap str (Os.Node Image))
  : M unit := fun w =>
  match op (fs w) with
  | inl e => (Raised e, w)
  | inr fs' =>
      (Returned tt,
       mkWorld (torch_rng w) (clock_reads w) (log w) fs' (pipeline_calls w)
         (pipeline_call_clock w))
  end.

Definition os_makedirs_exist_ok (name : str) : M unit :=
  update_fs (Os.makedirs_exist_ok name).

Definition image_save (image : Image) (path : str) : M unit :=
  update_fs (Os.save image path).

(** *** [TextToImageGenerator] *)

Record TextToImageGenerator := mkTextToImageGenerator {
  model_id : str;
  device : str
}.

(** The dictionary [info] of [generate_image], lines 173-185. *)
Record Info := mkInfo {
  info_prompt : str;
  info_negative_prompt : str;
  info_width : Z;
  info_height : Z;
  info_steps : Z;
  info_guidance_scale : Float;
  info_seed : Z;
  info_generation_time : Float;
  info_saved_as : str;
  info_model : str;
  info_device : str
}.

(** [TextToImageGenerator.generate_image], lines 109-193. *)
Definition generate_image (self : TextToImageGenerator)
    (prompt negative_prompt : str) (width height num_inference_steps : Z)
    (guidance_scale : Float) (seed : option Z) : M (Image * Info) :=
  try_except
    (let width := validate_dimension width in
     let height := validate_dimension height in
     '(generator, seed) ←
        match seed with
        | Some seed =>
            generator ← torch_manual_seed (device self) seed;
            mret (Some generator, seed)
        | None => seed ← torch_randint 0 (2 ^ 32); mret (None, seed)
        end;
     start_time ← time_time;
     logger_info
       (utf8 "🎨 Generating image: '" ++ take 50 prompt ++ utf8 "...'");;
     image ← self_pipeline
       {| call_prompt := prompt;
          call_negative_prompt :=
            if truthy negative_prompt then Some negative_prompt else None;
          call_width := width;
          call_height := height;
          call_num_inference_steps := num_inference_steps;
          call_guidance_scale := guidance_scale;
          call_generator := generator |};
     end_time ← time_time;
     let generation_time := float_sub end_time start_time in
     now ← datetime_now;
     let timestamp := strftime_Ymd_HMS now in
     let filename :=
       utf8 "generated_" ++ timestamp ++ utf8 "_" ++ str_of_int seed
       ++ utf8 ".png" in
     let output_path := Os.path_join (utf8 "outputs") filename in
     os_makedirs_exist_ok (utf8 "outputs");;
     image_save image output_path;;
     let info :=
       {| info_prompt := prompt;
          info_negative_prompt := negative_prompt;
          info_width := width;
          info_height := height;
          info_steps := num_inference_steps;
          info_guidance_scale := guidance_scale;
          info_seed := seed;
          info_generation_time := float_round generation_time 2;
          info_saved_as := filename;
          info_model := model_id self;
          info_device := device self |} in
     logger_info
       (utf8 "✅ Image generated in " ++ float_format_2f generation_time
        ++ utf8 "s");;
     mret (image, info))
    (fun e =>
       logger_error (utf8 "❌ Error generating image: " ++ Os.exc_str e);;
       raise e).

(** The module's [generator = TextToImageGenerator()], lines 32-45 and 197. *)
Definition generator : TextToImageGenerator :=
  {| model_id := utf8 "runwayml/stable-diffusion-v1-5";
     device := if cuda_is_available then utf8 "cuda" else utf8 "cpu" |}.

(** [generate_image_gradio], lines 222-271.  The numbers of the sliders are
    integers, so [int(width)] is [width]. *)
Definition generate_image_gradio (prompt negative_prompt style_preset : str)
    (width height steps : Z) (use_enhancer : bool) : M (option Image) :=
  try_except
    (if negb (truthy prompt) || negb (truthy (strip prompt)) then mret None
     else
       let prompt := apply_style_preset prompt style_preset in
       let enhanced_prompt := enhance_prompt prompt use_enhancer in
       '(image, info) ←
          generate_image generator enhanced_prompt negative_prompt
            width height steps float_7_5 None;
       mret (Some image))
    (fun e =>
       let error_msg := utf8 "❌ Error generating image: " ++ Os.exc_str e in
       logger_error error_msg;;
       mret None).

End Handler.

End App.

(** ** The demo variant, [app_vercel.py] *)

Module Vercel.

(** The table of style presets, lines 46-55 of [generate_image_gradio]. *)
Definition style_prompts : gmap str str :=
  list_to_map
    [ (utf8 "📸 Photorealistic", utf8 ", photorealistic, realistic, detailed, high quality");
      (utf8 "🎨 Artistic", utf8 ", artistic, painting style, creative, expressive");
      (utf8 "🌟 Cinematic", utf8 ", cinematic, dramatic lighting, movie scene, epic");
      (utf8 "✨ Fantasy", utf8 ", fantasy art, magical, ethereal, mystical");
      (utf8 "🔮 Sci-Fi", utf8 ", science fiction, futuristic, high-tech, cyberpunk");
      (utf8 "🏞️ Landscape", utf8 ", landscape photography, natural lighting, scenic");
      (utf8 "👤 Portrait", utf8 ", portrait, professional headshot, well-lit face");
      (utf8 "🎭 Vintage", utf8 ", vintage style, retro, classic, nostalgic") ].

(** "Add style preset to prompt", lines 44-57: the value of [prompt] after
    the block. *)
Definition apply_style_preset (prompt style_preset : str) : str :=
  if bool_decide (style_preset <> utf8 "None") then
    match style_prompts !! style_preset with
    | Some suffix => prompt ++ suffix
    | None => prompt
    end
  else prompt.

(** The f-string [demo_message], lines 60-74. *)
Definition demo_message (prompt style_preset : str) (width height steps : Z)
  : str :=
  newline
  ++ utf8 "🎨 DreamForge Studio - Web Demo" ++ newline
  ++ newline
  ++ utf8 "📝 Your prompt: " ++ dquote ++ take 100 prompt ++ utf8 "..."
  ++ dquote ++ newline
  ++ utf8 "⚙️ Settings: " ++ str_of_int width ++ utf8 "×" ++ str_of_int height
  ++ utf8 ", " ++ str_of_int steps ++ utf8 " steps" ++ newline
  ++ utf8 "🎭 Style: " ++ style_preset ++ newline
  ++ newline
  ++ utf8 "🌐 This is a web demo version. For full AI image generation:"
  ++ newline
  ++ utf8 "• Download and run locally for CPU generation" ++ newline
  ++ utf8 "• Use cloud GPU services for faster generation" ++ newline
  ++ utf8 "• Integrate with AI APIs for production deployment" ++ newline
  ++ newline
  ++ utf8 "🚀 The interface is fully functional - only the AI model "
  ++ newline
  ++ utf8 "   requires local resources or cloud GPU for actual generation."
  ++ newline
  ++ utf8 "        ".

Section Demo.
Context {Image : Type}.

(** The state the demo runs in: the sleeps it has taken, in seconds, and
    the file system. *)
Record World := mkWorld {
  slept : list Z;
  fs : gmap str (Os.Node Image)
}.

Definition time_sleep (seconds : Z) (w : World) : unit * World :=
  (tt, mkWorld (slept w ++ [seconds]) (fs w)).

Record DemoImageGenerator := mkDemoImageGenerator { device : str }.

(** The dictionary [DemoImageGenerator.generate_image] returns. *)
Record DemoInfo := mkDemoInfo {
  info_prompt : str;
  info_status : str;
  info_suggestion : str
}.

(** [DemoImageGenerator.generate_image], lines 18-33. *)
Definition generate_image (self : DemoImageGenerator) (prompt : str)
    (w : World) : (option Image * DemoInfo) * World :=
  let '(_, w) := time_sleep 2 w in
  ((None,
    {| info_prompt := prompt;
       info_status :=
         utf8 "Demo mode - actual generation requires GPU resources";
       info_suggestion :=
         utf8 "For full functionality, run locally or use cloud GPU services"
    |}),
   w).

Definition generator : DemoImageGenerator := {| device := utf8 "demo" |}.

(** [gr.update(value=...)]. *)
Inductive Update := gr_update (value : str).

(** [generate_image_gradio], lines 38-80.  No statement of the [try] block
    raises on strings and integers, so the handler of [except] is not
    reached. *)
Definition generate_image_gradio (prompt negative_prompt style_preset : str)
    (width height steps : Z) (use_enhancer : bool) (w : World)
  : option Update * World :=
  if negb (truthy prompt) || negb (truthy (strip prompt)) then (None, w)
  else
    let prompt := apply_style_preset prompt style_preset in
    (Some (gr_update (demo_message prompt style_preset width height steps)),
     w).

End Demo.

End Vercel.

(** ** Loading the model, [TextToImageGenerator.__init__] and [load_model] *)

Module Loader.

(** [torch.float16] and [torch.float32]. *)
Inductive Dtype := float16 | float32.

(** The calls [load_model] makes to the diffusers library.  The arguments
    [safety_checker=None], [requires_safety_checker=False] and
    [use_safetensors=True] of [from_pretrained] are the same in every call
    and are left out. *)
Inductive LibraryCall :=
| FromPretrained (model_id : str) (torch_dtype : Dtype) (variant : option str)
| SchedulerFromConfig
| To (device : str)
| EnableAttentionSlicing
| EnableSequentialCpuOffload
| EnableXformersMemoryEfficientAttention
| EnableModelCpuOffload.

(** What the module finds when it is imported, and the library.
    [from_pretrained] returns a pipeline or raises; each of the other
    operations works on the pipeline object in place, and leaves it in some
    state whether it raises or not.  [scheduler_from_config] stands for the
    assignment of line 63, [DPMSolverMultistepScheduler.from_config] of the
    pipeline's scheduler configuration put in the place of the scheduler. *)
Class Diffusers := {
  Pipeline : Type;
  DIFFUSERS_AVAILABLE : bool;
  IMPORT_ERROR : str;
  cuda_is_available : bool;
  from_pretrained : str -> Dtype -> option str -> Os.Exception + Pipeline;
  scheduler_from_config : Pipeline -> Pipeline * option Os.Exception;
  to : str -> Pipeline -> Pipeline * option Os.Exception;
  enable_attention_slicing : Pipeline -> Pipeline * option Os.Exception;
  enable_sequential_cpu_offload : Pipeline -> Pipeline * option Os.Exception;
  enable_xformers_memory_efficient_attention :
    Pipeline -> Pipeline * option Os.Exception;
  enable_model_cpu_offload : Pipeline -> Pipeline * option Os.Exception
}.

Section LoadModel.
Context `{Diffusers}.

(** The log, the attribute [self.pipeline], and the trace of the calls made
    to the library. *)
Record State := mkState {
  log : list App.LogRecord;
  self_pipeline : option Pipeline;
  calls : list LibraryCall
}.

Definition L (A : Type) : Type := State -> App.Outcome A * State.

#[global] Instance L_ret : MRet L := fun A a st => (App.Returned a, st).

#[global] Instance L_bind : MBind L := fun A B f c st =>
  match c st with
  | (App.Returned a, st') => f a st'
  | (App.Raised e, st') => (App.Raised e, st')
  end.

Definition raise {A : Type} (e : Os.Exception) : L A :=
  fun st => (App.Raised e, st).

Definition try_except {A : Type} (body : L A) (handler : Os.Exception -> L A)
  : L A :=
  fun st =>
    match body st with
    | (App.Returned a, st') => (App.Returned a, st')
    | (App.Raised e, st') => handler e st'
    end.

Definition logger (level : App.Level) (msg : str) : L unit := fun st =>
  (App.Returned tt,
   mkState (log st ++ [App.mkLogRecord level msg]) (self_pipeline st)
     (calls st)).

(** [self.pipeline = value]. *)
Definition set_self_pipeline (value : option Pipeline) : L unit := fun st =>
  (App.Returned tt, mkState (log st) value (calls st)).

(** [StableDiffusionPipeline.from_pretrained(...)]. *)
Definition call_from_pretrained (model_id : str) (torch_dtype : Dtype)
    (variant : option str) : L Pipeline := fun st =>
  let st' :=
    mkState (log st) (self_pipeline st)
      (calls st ++ [FromPretrained model_id torch_dtype variant]) in
  match from_pretrained model_id torch_dtype variant with
  | inl e => (App.Raised e, st')
  | inr pipe => (App.Returned pipe, st')
  end.

(** [self.pipeline.attribute(...)]: an [AttributeError] when
    [self.pipeline] is [None], the operation on the object otherwise. *)
Definition on_self_pipeline (attribute : str) (call : LibraryCall)
    (operation : Pipeline -> Pipeline * option Os.Exception) : L unit :=
  fun st =>
    match self_pipeline st with
    | None =>
        (App.Raised
           (Os.mkException (utf8 "AttributeError")
              (utf8 "'NoneType' object has no attribute '" ++ attribute
               ++ utf8 "'")),
         st)
    | Some pipe =>
        let (pipe', raised) := operation pipe in
        let st' := mkState (log st) (Some pipe') (calls st ++ [call]) in
        match raised with
        | None => (App.Returned tt, st')
        | Some e => (App.Raised e, st')
        end
    end.

(** One optimisation of lines 73-99: the call and its line of the log, or a
    warning when the call raises. *)
Definition try_enable (attribute : str) (call : LibraryCall)
    (operation : Pipeline -> Pipeline * option Os.Exception)
    (enabled could_not : str) : L unit :=
  try_except
    (on_self_pipeline attribute call operation;;
     logger App.INFO enabled)
    (fun e => logger App.WARNING (could_not ++ Os.exc_str e)).

(** [TextToImageGenerator.load_model], lines 47-107. *)
Definition load_model (self : App.TextToImageGenerator) : L unit :=
  let on_cuda := bool_decide (App.device self = utf8 "cuda") in
  try_except
    (logger App.INFO
       (utf8 "Loading model " ++ App.model_id self ++ utf8 " on "
        ++ App.device self);;
     pipe ← call_from_pretrained (App.model_id self)
       (if on_cuda then float16 else float32)
       (if on_cuda then Some (utf8 "fp16") else None);
     set_self_pipeline (Some pipe);;
     on_self_pipeline (utf8 "scheduler") SchedulerFromConfig
       scheduler_from_config;;
     on_self_pipeline (utf8 "to") (To (App.device self))
       (to (App.device self));;
     (if bool_decide (App.device self = utf8 "cpu") then
        try_enable (utf8 "enable_attention_slicing") EnableAttentionSlicing
          enable_attention_slicing
          (utf8 "✅ Attention slicing enabled for CPU efficiency")
          (utf8 "⚠️ Could not enable attention slicing: ");;
        try_enable (utf8 "enable_sequential_cpu_offload")
          EnableSequentialCpuOffload enable_sequential_cpu_offload
          (utf8 "✅ Sequential CPU offload enabled")
          (utf8 "⚠️ Could not enable sequential CPU offload: ")
      else mret tt);;
     (if on_cuda then
        try_enable (utf8 "enable_xformers_memory_efficient_attention")
          EnableXformersMemoryEfficientAttention
          enable_xformers_memory_efficient_attention
          (utf8 "✅ xformers memory efficient attention enabled")
          (utf8 "⚠️ Could not enable xformers: ");;
        try_enable (utf8 "enable_model_cpu_offload") EnableModelCpuOffload
          enable_model_cpu_offload
          (utf8 "✅ Model CPU offload enabled")
          (utf8 "⚠️ Could not enable CPU offload: ")
      else
        logger App.INFO (utf8 "💻 Running on CPU - skipping GPU optimizations"));;
     logger App.INFO (utf8 "✅ Model loaded successfully!"))
    (fun e =>
       logger App.ERROR (utf8 "❌ Error loading model: " ++ Os.exc_str e);;
       raise e).

(** [TextToImageGenerator.__init__], lines 32-45: the object made, once
    its model is loaded. *)
Definition init (model_id : str) : L App.TextToImageGenerator :=
  if negb DIFFUSERS_AVAILABLE then
    raise (Os.mkException (utf8 "ImportError")
             (utf8 "Diffusers library not available: " ++ IMPORT_ERROR))
  else
    let self :=
      {| App.model_id := model_id;
         App.device :=
           if cuda_is_available then utf8 "cuda" else utf8 "cpu" |} in
    set_self_pipeline None;;
    load_model self;;
    mret self.

End LoadModel.

End Loader.

(** ** The choice of a port, lines 677-696 of [app.py] *)

Module Ports.

(** What comes of making a socket and binding it to a port of the loopback
    address: the socket is bound, or an [OSError] is raised, or another
    exception. *)
Inductive BindResult :=
| Bound
| RaisesOSError
| RaisesOther (e : Os.Exception).

(** [range(start, stop)]. *)
Definition range (start stop : Z) : list Z :=
  map (fun i => start + Z.of_nat i) (seq 0 (Z.to_nat (stop - start))).

Section FindFreePort.
Variable try_bind : Z -> BindResult.

(** The [for] loop of [find_free_port] over the ports left. *)
Fixpoint find_free_port_loop (ports : list Z) : Os.Exception + option Z :=
  match ports with
  | [] => inr None
  | port :: rest =>
      match try_bind port with
      | Bound => inr (Some port)
      | RaisesOSError => find_free_port_loop rest
      | RaisesOther e => inl e
      end
  end.

(** [find_free_port], lines 679-688. *)
Definition find_free_port (start_port max_port : Z)
  : Os.Exception + option Z :=
  find_free_port_loop (range start_port (max_port + 1)).

(** Lines 690-696: the port the interface is launched on, and the lines
    printed on the way. *)
Definition available_port : Os.Exception + Z * list str :=
  match find_free_port 7860 7870 with
  | inl e => inl e
  | inr found =>
      match found with
      | Some port =>
          if port =? 0 then inr (7860, [])
          else
            inr (port,
                 [utf8 "🔄 Port 7860 busy, using port " ++ str_of_int port;
                  utf8 "📱 Updated URL: http://localhost:" ++ str_of_int port])
      | None => inr (7860, [])
      end
  end.

End FindFreePort.

End Ports.

(** ** A stand-in for the libraries

    One instance of [App.Externals] to run the full variant on.  A float is
    a number of hundredths, so that rounding to two digits changes nothing;
    the default generator is a counter; the clocks advance by one second a
    reading; the pipeline refuses a step count below one and otherwise
    returns the image numbered by its source of noise, which is the seed of
    the generator it is handed or, without one, the state of the default
    generator. *)

Module Fake.

Definition fake_pipeline (call : App.PipelineCall Z) (g : Z)
  : (Os.Exception + N) * Z :=
  if call.(App.call_num_inference_steps) <=? 0
  then (inl (Os.mkException (utf8 "ValueError")
               (utf8 "num_inference_steps must be positive")), g)
  else
    match call.(App.call_generator) with
    | Some gen => (inr (Z.to_N gen.(App.gen_seed)), g)
    | None => (inr (Z.to_N g), g + 1)
    end.

#[local] Instance externals : App.Externals := {|
  App.Image := N;
  App.Float := Z;
  App.Rng := Z;
  App.float_sub := Z.sub;
  App.float_round := fun x _ => x;
  App.float_format_2f := fun x =>
    str_of_int (x / 100) ++ utf8 "." ++ zero_pad 2 (Z.to_N (x mod 100));
  App.float_7_5 := 750;
  App.cuda_is_available := false;
  App.randint := fun low high g => (low + g mod (high - low), g + 1);
  App.time_at := fun k => 170000000000 + 100 * Z.of_nat k;
  App.now_at := fun k => mkDateTime 2024 3 9 7 5 (N.of_nat k);
  App.pipeline := fake_pipeline
|}.

Definition world0 : App.World := App.mkWorld 41 0 [] ∅ [] [].


Definition demo_world0 : @Vercel.World unit := Vercel.mkWorld [] ∅.

(** A state in which a file has the name of the output directory. *)
Definition world_outputs_file : App.World :=
  App.mkWorld 41 0 [] {[ utf8 "outputs" := Os.File 7%N ]} [] [].

End Fake.

(** ** Stand-ins for the diffusers library and for the ports

    The pipeline object is the list of what was done to it; sequential
    offload and xformers are not to be had. *)

Module FakeLoader.

Definition unavailable (what : string) : Os.Exception :=
  Os.mkException (utf8 "ModuleNotFoundError") (utf8 what).

#[local] Instance diffusers : Loader.Diffusers := {|
  Loader.Pipeline := list Loader.LibraryCall;
  Loader.DIFFUSERS_AVAILABLE := true;
  Loader.IMPORT_ERROR := [];
  Loader.cuda_is_available := false;
  Loader.from_pretrained := fun model_id torch_dtype variant =>
    inr [Loader.FromPretrained model_id torch_dtype variant];
  Loader.scheduler_from_config := fun pipe =>
    (pipe ++ [Loader.SchedulerFromConfig], None);
  Loader.to := fun device pipe => (pipe ++ [Loader.To device], None);
  Loader.enable_attention_slicing := fun pipe =>
    (pipe ++ [Loader.EnableAttentionSlicing], None);
  Loader.enable_sequential_cpu_offload := fun pipe =>
    (pipe, Some (unavailable "No module named 'accelerate'"));
  Loader.enable_xformers_memory_efficient_attention := fun pipe =>
    (pipe, Some (unavailable "No module named 'xformers'"));
  Loader.enable_model_cpu_offload := fun pipe =>
    (pipe ++ [Loader.EnableModelCpuOffload], None)
|}.

Definition state0 : Loader.State := Loader.mkState [] None [].


(** The ports below [first_free] are taken. *)
Definition taken_below (first_free : Z) (port : Z) : Ports.BindResult :=
  if port <? first_free then Ports.RaisesOSError else Ports.Bound.

End FakeLoader.

(** ** The vocabulary of the specification *)

(** A prompt is blank when it is empty or holds white space only. *)
Definition blank (s : str) : bool := forallb isspace s.

(** A term occurs in a prompt, whatever the case of the letters, when the
    lower-case term is a contiguous part of the lower-case prompt. *)
Definition occurs_ci (term prompt : str) : Prop :=
  exists pre post, lower prompt = pre ++ lower term ++ post.

(** A character of a prompt is a given letter of a term whatever its case
    when it is that letter, its upper-case form for a letter from a to z,
    or the Kelvin sign for a k. *)
Definition same_letter (a c : N) : Prop :=
  c = a
  \/ ((97 <= a <= 122)%N /\ c = (a - 32)%N)
  \/ (a = 107%N /\ c = 8490%N).

(** A term occurs in a prompt, whatever the case of the letters of the
    prompt, when a contiguous part of the prompt spells it letter by
    letter. *)
Definition occurs_ignoring_case (term prompt : str) : Prop :=
  exists pre mid post,
    prompt = pre ++ mid ++ post /\ Forall2 same_letter term mid.

(** The seed of a request is one a generator can be seeded with: a number
    of 64 bits, signed or unsigned.  A request without a seed seeds no
    generator. *)
Definition seed_accepted (seed : option Z) : bool :=
  match seed with
  | Some s => bool_decide (- 2 ^ 63 <= s < 2 ^ 64)
  | None => true
  end.

(** The normalisation of a dimension as the specification words it: clamp
    to [64, 1024], then round down to a multiple of 8. *)
Definition clamp (x low high : Z) : Z := Z.max low (Z.min high x).

Definition clamp_dim (dim : Z) : Z := clamp dim 64 1024 / 8 * 8.

(** A text of [n] decimal digits. *)
Definition digits (s : str) (n : nat) : Prop :=
  length s = n /\ Forall (fun c => (48 <= c <= 57)%N) s.

Definition digitsb (s : str) (n : nat) : bool :=
  Nat.eqb (length s) n && forallb (fun c => (48 <=? c) && (c <=? 57))%N s.


(** The dates [datetime.now()] returns, from the year 1000 on. *)
Definition calendar_date (dt : DateTime) : Prop :=
  (1000 <= year dt <= 9999 /\ 1 <= month dt <= 12 /\ 1 <= day dt <= 31
   /\ hour dt <= 23 /\ minute dt <= 59 /\ second dt <= 59)%N.

Section Requests.
Context `{App.Externals}.

(** The arguments the pipeline is to be called with on a request to
    [generate_image], the generator apart. *)
Definition request_call (prompt negative_prompt : str)
    (width height steps : Z) (guidance_scale : App.Float)
    (generator : option App.Generator) : App.PipelineCall App.Float :=
  {| App.call_prompt := prompt;
     App.call_negative_prompt :=
       match negative_prompt with [] => None | _ :: _ => Some negative_prompt end;
     App.call_width := clamp_dim width;
     App.call_height := clamp_dim height;
     App.call_num_inference_steps := steps;
     App.call_guidance_scale := guidance_scale;
     App.call_generator := generator |}.

(** The draw of a seed from the 32-bit range, on the default generator. *)
Definition seed_draw (w : App.World) : Z * App.Rng :=
  App.randint 0 (2 ^ 32) (App.torch_rng w).

(** The two lines the handlers write to the log. *)
Definition generating_record (prompt : str) : App.LogRecord :=
  App.mkLogRecord App.INFO
    (utf8 "🎨 Generating image: '" ++ take 50 prompt ++ utf8 "...'").

Definition error_record (e : Os.Exception) : App.LogRecord :=
  App.mkLogRecord App.ERROR
    (utf8 "❌ Error generating image: " ++ Os.exc_str e).

(** The state a request leaves when its seed is refused: one line more in
    the log. *)
Definition seed_refused (w : App.World) : App.World :=
  App.mkWorld (App.torch_rng w) (App.clock_reads w)
    (App.log w ++ [error_record App.manual_seed_overflow]) (App.fs w)
    (App.pipeline_calls w) (App.pipeline_call_clock w).

(** The image and the seed on record of a request that returned. *)
Definition image_and_seed (outcome : App.Outcome (App.Image * App.Info))
  : option (App.Image * Z) :=
  match outcome with
  | App.Returned (image, info) => Some (image, App.info_seed info)
  | App.Raised _ => None
  end.

End Requests.

(** The prompt enhanced [n] times over. *)
Fixpoint enhance_times (n : nat) (prompt : str) : str :=
  match n with
  | O => prompt
  | S n' => App.enhance_prompt (enhance_times n' prompt) true
  end.

(** The terms of the list that [enhance_prompt] finds missing from a
    prompt. *)
Definition missing_terms (prompt : str) : list str :=
  List.filter (fun e => negb (contains e (lower prompt))) App.enhancers.

(** The records of a level in a log. *)
Definition records_at (level : App.Level) (log : list App.LogRecord)
  : list App.LogRecord :=
  List.filter
    (fun record =>
       match App.levelname record, level with
       | App.INFO, App.INFO | App.WARNING, App.WARNING
       | App.ERROR, App.ERROR => true
       | _, _ => false
       end) log.

(** The values of the width and height sliders: 256 to 1024 by steps of
    64. *)
Definition slider_value (dim : Z) : Prop :=
  exists k, 0 <= k <= 12 /\ dim = 256 + 64 * k.

(** The arguments [load_model] gives [from_pretrained] for a device, and
    the lines it writes to the log. *)
Definition load_dtype (self : App.TextToImageGenerator) : Loader.Dtype :=
  if bool_decide (App.device self = utf8 "cuda") then Loader.float16
  else Loader.float32.

Definition load_variant (self : App.TextToImageGenerator) : option str :=
  if bool_decide (App.device self = utf8 "cuda") then Some (utf8 "fp16")
  else None.

Definition loading_record (self : App.TextToImageGenerator) : App.LogRecord :=
  App.mkLogRecord App.INFO
    (utf8 "Loading model " ++ App.model_id self ++ utf8 " on "
     ++ App.device self).

Definition loaded_record : App.LogRecord :=
  App.mkLogRecord App.INFO (utf8 "✅ Model loaded successfully!").

Definition load_error_record (e : Os.Exception) : App.LogRecord :=
  App.mkLogRecord App.ERROR (utf8 "❌ Error loading model: " ++ Os.exc_str e).

(** The line an optimisation leaves in the log: that it is enabled, or a
    warning with the exception it raised. *)
Definition optimisation_record (enabled could_not : string)
    (raised : option Os.Exception) : App.LogRecord :=
  match raised with
  | None => App.mkLogRecord App.INFO (utf8 enabled)
  | Some e => App.mkLogRecord App.WARNING (utf8 could_not ++ Os.exc_str e)
  end.

(** * Properties *)

(** ** The literals and the string functions on examples *)

Example utf8_ascii : utf8 "a cat" = [97; 32; 99; 97; 116]%N.
Proof. reflexivity. Qed.

Example utf8_camera : utf8 "📸 P" = [128248; 32; 80]%N.
Proof. reflexivity. Qed.

Example utf8_landscape : utf8 "🏞️ L" = [127966; 65039; 32; 76]%N.
Proof. reflexivity. Qed.

Example str_of_int_negative : str_of_int (-42) = utf8 "-42".
Proof. reflexivity. Qed.

Example str_of_int_zero : str_of_int 0 = utf8 "0".
Proof. reflexivity. Qed.

Example strip_example : strip (utf8 "  a b ") = utf8 "a b".
Proof. reflexivity. Qed.

Example lower_example : lower (utf8 "A Cat, 4K") = utf8 "a cat, 4k".
Proof. reflexivity. Qed.

Example join_example :
  join (utf8 ", ") [utf8 "a"; utf8 "b"; utf8 "c"] = utf8 "a, b, c".
Proof. reflexivity. Qed.

Example strftime_example :
  strftime_Ymd_HMS (mkDateTime 2024 3 9 7 5 0) = utf8 "20240309_070500".
Proof. reflexivity. Qed.

(** ** Strings *)

Section Strings.
Implicit Types s p sub : str.

Lemma lstrip_nil_blank s : lstrip s = [] <-> blank s = true.
Proof.
  induction s as [|c s IH]; simpl; [tauto|].
  destruct (isspace c); simpl; [exact IH|].
  split; discriminate.
Qed.

Lemma lstrip_head s c t : lstrip s = c :: t -> isspace c = false.
Proof.
  induction s as [|a s IH]; simpl; [discriminate|].
  destruct (isspace a) eqn:Ha; [exact IH|].
  intros [= -> _]. exact Ha.
Qed.

Lemma blank_rev s : blank (rev s) = blank s.
Proof.
  unfold blank. induction s as [|c s IH]; simpl; [reflexivity|].
  rewrite forallb_app, IH. simpl. rewrite andb_true_r. apply andb_comm.
Qed.

(** [s.strip()] is empty exactly when [s] is blank. *)
Lemma strip_nil_blank s : strip s = [] <-> blank s = true.
Proof.
  unfold strip, rstrip. split.
  - intros Hs. apply (f_equal (@rev N)) in Hs. rewrite rev_involutive in Hs.
    simpl in Hs. apply lstrip_nil_blank in Hs. rewrite blank_rev in Hs.
    destruct (lstrip s) as [|c t] eqn:Hl; [now apply lstrip_nil_blank|].
    apply lstrip_head in Hl. simpl in Hs. rewrite Hl in Hs. discriminate.
  - intros Hb. apply lstrip_nil_blank in Hb. now rewrite Hb.
Qed.

Lemma truthy_strip_blank s : truthy (strip s) = negb (blank s).
Proof.
  destruct (blank s) eqn:Hb.
  - apply strip_nil_blank in Hb. now rewrite Hb.
  - destruct (strip s) eqn:Hs; [|reflexivity].
    apply strip_nil_blank in Hs. congruence.
Qed.

Lemma blank_not_truthy s : truthy s = false -> blank s = true.
Proof. destruct s; [reflexivity | discriminate]. Qed.

(** The test of the two handlers, [not prompt or not prompt.strip()]. *)
Lemma guard_blank s :
  negb (truthy s) || negb (truthy (strip s)) = blank s.
Proof.
  rewrite truthy_strip_blank, negb_involutive.
  destruct (truthy s) eqn:Ht; simpl; [reflexivity|].
  symmetry. now apply blank_not_truthy.
Qed.

Lemma startswith_prefix p s : startswith p s = true <-> p `prefix_of` s.
Proof.
  revert s. induction p as [|a p IH]; intros s; simpl.
  - split; [intros _; apply prefix_nil | reflexivity].
  - destruct s as [|b s].
    + split; [discriminate | intros [k Hk]; discriminate].
    + rewrite andb_true_iff, N.eqb_eq, IH. split.
      * intros [-> Hp]. now apply prefix_cons.
      * intros [k Hk]. injection Hk as -> ->. split; [reflexivity|].
        now exists k.
Qed.

(** [sub in s] holds exactly when [s] is some text, then [sub], then some
    text. *)
Lemma contains_infix sub s :
  contains sub s = true <-> exists pre post, s = pre ++ sub ++ post.
Proof.
  induction s as [|c s IH]; simpl.
  - rewrite orb_false_r, startswith_prefix. split.
    + intros [k Hk]. now exists [], k.
    + intros (pre & post & Hs). symmetry in Hs.
      apply app_eq_nil in Hs as [-> Hs]. apply app_eq_nil in Hs as [-> _].
      apply prefix_nil.
  - rewrite orb_true_iff, startswith_prefix, IH. split.
    + intros [[k Hk] | (pre & post & ->)].
      * now exists [], k.
      * now exists (c :: pre), post.
    + intros ([|a pre] & post & Hs).
      * left. now exists post.
      * right. injection Hs as _ ->. now exists pre, post.
Qed.

(** [f"{p}, {', '.join(items)}"] puts a comma and a space before each of
    the items. *)
Lemma join_comma_separated p (items : list str) :
  items <> [] ->
  p ++ utf8 ", " ++ join (utf8 ", ") items
  = p ++ flat_map (fun item => utf8 ", " ++ item) items.
Proof.
  intros Hne. f_equal.
  destruct items as [|x items]; [congruence|]. clear Hne.
  revert x. induction items as [|y items IH]; intros x.
  - simpl. now rewrite app_nil_r.
  - change (join (utf8 ", ") (x :: y :: items))
      with (x ++ utf8 ", " ++ join (utf8 ", ") (y :: items)).
    change (flat_map (fun item => utf8 ", " ++ item) (x :: y :: items))
      with ((utf8 ", " ++ x)
            ++ flat_map (fun item => utf8 ", " ++ item) (y :: items)).
    rewrite <- IH. now rewrite <- !app_assoc.
Qed.

End Strings.

(** ** Dimensions *)

(** Rounding down first and clamping afterwards, as the code does, gives the
    same number. *)
Lemma validate_dimension_clamp_dim dim :
  App.validate_dimension dim = clamp_dim dim.
Proof.
  unfold App.validate_dimension, clamp_dim, clamp.
  Z.div_mod_to_equations. lia.
Qed.

Lemma clamp_dim_range dim :
  64 <= clamp_dim dim <= 1024 /\ clamp_dim dim mod 8 = 0.
Proof.
  unfold clamp_dim, clamp. split.
  - Z.div_mod_to_equations. lia.
  - apply Z_mod_mult.
Qed.

(** ** The prompt enhancer *)

Section Enhancer.
Import App.

Lemma enhance_prompt_disabled p : enhance_prompt p false = p.
Proof. reflexivity. Qed.

Lemma enhance_prompt_blank p : blank p = true -> enhance_prompt p true = p.
Proof.
  intros Hb. unfold enhance_prompt.
  now rewrite truthy_strip_blank, Hb.
Qed.

(** The terms the enhancer finds missing from a prompt. *)
Lemma enhance_prompt_missing p :
  blank p = false ->
  enhance_prompt p true
  = let missing :=
      List.filter (fun e => negb (contains e (lower p))) enhancers in
    p ++ flat_map (fun e => utf8 ", " ++ e) (take 3 missing).
Proof.
  intros Hb. unfold enhance_prompt.
  rewrite truthy_strip_blank, Hb. cbv zeta.
  change (negb true || negb (negb false)) with false. cbv iota.
  destruct (List.filter _ enhancers) as [|e missing] eqn:Hm.
  - simpl. now rewrite app_nil_r.
  - apply join_comma_separated. discriminate.
Qed.

(** The terms of the list are in lower case already. *)
Lemma enhancers_lower e : In e enhancers -> lower e = e.
Proof.
  assert (Hall : forallb (fun e => bool_decide (lower e = e)) enhancers = true)
    by (vm_compute; reflexivity).
  rewrite forallb_forall in Hall. intros He.
  apply Hall in He. now apply bool_decide_eq_true in He.
Qed.

Lemma filter_sublist {A : Type} (f : A -> bool) (l : list A) :
  List.filter f l `sublist_of` l.
Proof.
  induction l as [|a l IH]; simpl; [constructor|].
  destruct (f a); now constructor.
Qed.

Lemma missing_iff_not_occurs p e :
  In e enhancers ->
  In e (List.filter (fun e => negb (contains e (lower p))) enhancers)
  <-> ~ occurs_ci e p.
Proof.
  intros He. rewrite filter_In, negb_true_iff. unfold occurs_ci.
  rewrite (enhancers_lower e He), <- contains_infix.
  destruct (contains e (lower p)); split; try tauto; try congruence.
  intros [_ Hf]. discriminate.
Qed.

(** *** Occurrences whatever the case

    [term in prompt.lower()] against the occurrences of the term in the
    prompt itself, letter by letter. *)

Lemma lower_char_same_letter a c : lower_char c = [a] -> same_letter a c.
Proof.
  unfold lower_char, same_letter.
  destruct ((65 <=? c) && (c <=? 90))%N eqn:Hupper.
  - apply andb_true_iff in Hupper as [Hlo Hhi].
    apply N.leb_le in Hlo, Hhi. intros [= <-]. right. left. lia.
  - destruct (c =? 304)%N; [discriminate|].
    destruct (c =? 8490)%N eqn:Hk.
    + apply N.eqb_eq in Hk. intros [= <-]. right. right. now split.
    + intros [= <-]. now left.
Qed.

Lemma same_letter_lower_char a c :
  lower_char a = [a] -> same_letter a c -> lower_char c = [a].
Proof.
  intros Ha [->|[[Hrange ->]|[-> ->]]]; [exact Ha| |reflexivity].
  unfold lower_char.
  replace ((65 <=? a - 32) && (a - 32 <=? 90))%N with true.
  - f_equal. lia.
  - symmetry. apply andb_true_iff. rewrite !N.leb_le. lia.
Qed.

Lemma lower_cons c p : lower (c :: p) = lower_char c ++ lower p.
Proof. reflexivity. Qed.

Lemma lower_app p q : lower (p ++ q) = lower p ++ lower q.
Proof. apply flat_map_app. Qed.

(** A part of a prompt that spells a lower-case term is that term once in
    lower case. *)
Lemma same_letters_lower term mid :
  Forall (fun a => lower_char a = [a]) term ->
  Forall2 same_letter term mid -> lower mid = term.
Proof.
  intros Hterm Hsame. induction Hsame as [|a c term mid Hac _ IH].
  - reflexivity.
  - apply Forall_cons in Hterm as [Ha Hterm].
    rewrite lower_cons, (same_letter_lower_char a c Ha Hac), IH by exact Hterm.
    reflexivity.
Qed.

(** A term without the combining dot U+0307 that does not end in an i: when
    the prompt in lower case starts with it, the prompt starts with a part
    that spells it. *)
Lemma startswith_lower_same_letters term :
  Forall (fun a => a <> 775%N) term -> last term <> Some 105%N ->
  forall p,
    startswith term (lower p) = true ->
    exists mid post, p = mid ++ post /\ Forall2 same_letter term mid.
Proof.
  induction term as [|a term IH]; intros Hdot Hlast p Hstart.
  - exists [], p. split; [reflexivity|constructor].
  - apply Forall_cons in Hdot as [Ha Hdot].
    assert (Hlast' : last term <> Some 105%N).
    { destruct term as [|b term]; [discriminate|exact Hlast]. }
    destruct p as [|c p]; [discriminate Hstart|].
    rewrite lower_cons in Hstart.
    assert (Hone : lower_char c = [a] /\ startswith term (lower p) = true).
    { revert Hstart. unfold lower_char.
      destruct ((65 <=? c) && (c <=? 90))%N; simpl;
        [|destruct (c =? 304)%N; simpl; [|destruct (c =? 8490)%N; simpl]];
        rewrite andb_true_iff, N.eqb_eq.
      - intros [-> Hrest]. now split.
      - intros [-> Hrest]. exfalso.
        destruct term as [|b term]; [now apply Hlast|].
        simpl in Hrest. apply andb_true_iff in Hrest as [Hb _].
        apply N.eqb_eq in Hb. apply Forall_cons in Hdot as [Hb' _].
        now apply Hb'.
      - intros [-> Hrest]. now split.
      - intros [-> Hrest]. now split. }
    destruct Hone as [Hc Hrest].
    destruct (IH Hdot Hlast' p Hrest) as (mid & post & -> & Hsame).
    exists (c :: mid), post. split; [reflexivity|].
    constructor; [now apply lower_char_same_letter|exact Hsame].
Qed.

Lemma contains_lower_same_letters term p :
  Forall (fun a => a <> 775%N) term -> last term <> Some 105%N ->
  contains term (lower p) = true -> occurs_ignoring_case term p.
Proof.
  intros Hdot Hlast. induction p as [|c p IH]; intros Hin.
  - simpl in Hin. rewrite orb_false_r in Hin.
    destruct (startswith_lower_same_letters term Hdot Hlast [] Hin)
      as (mid & post & Hp & Hsame).
    now exists [], mid, post.
  - assert (Hor : startswith term (lower (c :: p)) = true
                  \/ contains term (lower p) = true).
    { revert Hin. rewrite lower_cons. unfold lower_char.
      destruct ((65 <=? c) && (c <=? 90))%N; simpl;
        [|destruct (c =? 304)%N; simpl; [|destruct (c =? 8490)%N; simpl]];
        rewrite ?orb_true_iff; try tauto.
      intros [Hhere|[Hdotted|Hlater]]; [now left| |now right].
      destruct term as [|a term]; [now left|].
      apply Forall_cons in Hdot as [Ha _].
      apply andb_true_iff in Hdotted as [Heq _].
      apply N.eqb_eq in Heq. contradiction. }
    destruct Hor as [Hhere|Hlater].
    + destruct (startswith_lower_same_letters term Hdot Hlast _ Hhere)
        as (mid & post & Hp & Hsame).
      now exists [], mid, post.
    + destruct (IH Hlater) as (pre & mid & post & -> & Hsame).
      now exists (c :: pre), mid, post.
Qed.

Lemma occurs_contains_lower term p :
  Forall (fun a => lower_char a = [a]) term ->
  occurs_ignoring_case term p -> contains term (lower p) = true.
Proof.
  intros Hterm (pre & mid & post & -> & Hsame).
  rewrite !lower_app, (same_letters_lower term mid Hterm Hsame).
  apply contains_infix. now exists (lower pre), (lower post).
Qed.

(** The terms of the list are in lower case, hold no combining dot and do
    not end in an i. *)
Lemma enhancers_plain e :
  In e enhancers ->
  Forall (fun a => lower_char a = [a]) e
  /\ Forall (fun a => a <> 775%N) e
  /\ last e <> Some 105%N.
Proof.
  assert (Hall : Forall (fun e =>
    Forall (fun a => lower_char a = [a]) e
    /\ Forall (fun a => a <> 775%N) e
    /\ last e <> Some 105%N) enhancers).
  { apply (bool_decide_unpack _). vm_compute. exact I. }
  rewrite Forall_forall in Hall. intros He. apply Hall.
  now apply list_elem_of_In.
Qed.

(** The test of the enhancer, [e not in prompt_lower], finds a term of the
    list missing exactly when no part of the prompt spells it, whatever the
    case of the letters of the prompt. *)
Lemma missing_iff_not_occurs_ignoring_case p e :
  In e enhancers ->
  In e (List.filter (fun e => negb (contains e (lower p))) enhancers)
  <-> ~ occurs_ignoring_case e p.
Proof.
  intros He. destruct (enhancers_plain e He) as (Hlow & Hdot & Hlast).
  rewrite filter_In, negb_true_iff. split.
  - intros [_ Hno] Hocc.
    rewrite (occurs_contains_lower e p Hlow Hocc) in Hno. discriminate.
  - intros Hno. split; [exact He|].
    destruct (contains e (lower p)) eqn:Hin; [|reflexivity].
    exfalso. now apply Hno, contains_lower_same_letters.
Qed.

(** C3.  With the enhancer off, and on a blank prompt, [enhance_prompt]
    returns the prompt as it is.  Otherwise the terms of the fixed list
    that no part of the prompt spells, whatever the case of the letters of
    the prompt, are taken in the order of the list, and the first three of
    them at most are appended, each after a comma and a space.  On "a cat"
    the three terms appended are the first three of the list, none of which
    occurs in it; on "A DETAILED Cat" the second term of the list is not
    appended. *)
Theorem enhance_prompt_appends_missing_terms :
  (forall p, enhance_prompt p false = p)
  /\ (forall p, blank p = true -> enhance_prompt p true = p)
  /\ (forall p, blank p = false ->
        exists missing,
          missing `sublist_of` enhancers
          /\ (forall e, In e enhancers ->
                In e missing <-> ~ occurs_ignoring_case e p)
          /\ (length (take 3 missing) <= 3)%nat
          /\ enhance_prompt p true
             = p ++ flat_map (fun e => utf8 ", " ++ e) (take 3 missing))
  /\ enhancers
     = map utf8
         ["high quality"; "detailed"; "professional"; "artistic";
          "4k resolution"; "sharp focus"; "well-composed"]%string
  /\ enhance_prompt (utf8 "a cat") true
     = utf8 "a cat" ++ utf8 ", high quality" ++ utf8 ", detailed"
       ++ utf8 ", professional"
  /\ Forall (fun e => ~ occurs_ignoring_case e (utf8 "a cat"))
       (map utf8 ["high quality"; "detailed"; "professional"]%string)
  /\ occurs_ignoring_case (utf8 "detailed") (utf8 "A DETAILED Cat")
  /\ enhance_prompt (utf8 "A DETAILED Cat") true
     = utf8 "A DETAILED Cat" ++ utf8 ", high quality" ++ utf8 ", professional"
       ++ utf8 ", artistic".
Proof.
  split; [exact enhance_prompt_disabled|].
  split; [exact enhance_prompt_blank|].
  split; [|split; [reflexivity|split; [vm_compute; reflexivity|split;
    [|split; [|vm_compute; reflexivity]]]]].
  - intros p Hb.
    exists (List.filter (fun e => negb (contains e (lower p))) enhancers).
    split; [apply filter_sublist|].
    split; [intros e He; now apply missing_iff_not_occurs_ignoring_case|].
    split; [rewrite length_take; lia|].
    now apply enhance_prompt_missing.
  - rewrite Forall_forall. intros e He.
    assert (Hin : In e enhancers).
    { apply list_elem_of_In in He. simpl in He. unfold enhancers. simpl.
      tauto. }
    apply missing_iff_not_occurs_ignoring_case; [exact Hin|].
    replace (List.filter _ enhancers) with enhancers
      by (vm_compute; reflexivity).
    exact Hin.
  - exists (utf8 "A "), (utf8 "DETAILED"), (utf8 " Cat").
    split; [reflexivity|].
    let term := eval vm_compute in (utf8 "detailed") in
    let mid := eval vm_compute in (utf8 "DETAILED") in
    change (Forall2 same_letter term mid).
    repeat (apply List.Forall2_cons;
            [right; left; split; [lia|reflexivity]|]).
    apply List.Forall2_nil.
Qed.

(** On a prompt that holds four of the terms, the three missing ones are
    appended. *)
Example enhance_prompt_four_present :
  enhance_prompt
    (utf8 "a cat, high quality, detailed, professional, artistic") true
  = utf8 "a cat, high quality, detailed, professional, artistic"
    ++ utf8 ", 4k resolution, sharp focus, well-composed".
Proof. vm_compute. reflexivity. Qed.

(** The case of the letters of the prompt does not matter. *)
Example enhance_prompt_upper_case :
  enhance_prompt (utf8 "A Cat, HIGH Quality, Detailed") true
  = utf8 "A Cat, HIGH Quality, Detailed"
    ++ utf8 ", professional, artistic, 4k resolution".
Proof. vm_compute. reflexivity. Qed.

End Enhancer.

(** ** Style presets *)

Section StylePresets.

(** Every choice of the drop-down but "None" is a key of the table, and its
    suffix opens with a comma and a space. *)
Lemma style_choices_in_table preset :
  In preset App.style_choices -> preset <> utf8 "None" ->
  exists rest, App.style_prompts !! preset = Some (utf8 ", " ++ rest).
Proof.
  intros Hin Hne.
  assert (Hall :
    forallb
      (fun key =>
         match App.style_prompts !! key with
         | Some suffix => startswith (utf8 ", ") suffix
         | None => false
         end)
      (tail App.style_choices) = true) by (vm_compute; reflexivity).
  rewrite forallb_forall in Hall.
  assert (Htail : In preset (tail App.style_choices)).
  { destruct Hin as [Heq | Hin]; [|exact Hin]. now symmetry in Heq. }
  apply Hall in Htail.
  destruct (App.style_prompts !! preset) as [suffix|]; [|discriminate].
  apply startswith_prefix in Htail as [rest ->]. now exists rest.
Qed.

Lemma apply_style_preset_lookup prompt preset :
  preset <> utf8 "None" ->
  App.apply_style_preset prompt preset
  = prompt ++ default [] (App.style_prompts !! preset).
Proof.
  intros Hne. unfold App.apply_style_preset.
  rewrite bool_decide_eq_true_2 by exact Hne.
  destruct (App.style_prompts !! preset); simpl; [reflexivity|].
  now rewrite app_nil_r.
Qed.

Lemma apply_style_preset_none prompt :
  App.apply_style_preset prompt (utf8 "None") = prompt.
Proof.
  unfold App.apply_style_preset.
  rewrite bool_decide_eq_false_2; [reflexivity|]. now intros Hne.
Qed.

Lemma style_tables_equal : Vercel.style_prompts = App.style_prompts.
Proof. reflexivity. Qed.

(** C4.  For every prompt and every style of the drop-down other than
    "None", the handler appends to the prompt the suffix the table gives the
    style, which opens with a comma and a space.  The style the
    specification calls Photorealistic is the choice "📸 Photorealistic":
    on the prompt "X" it gives "X, photorealistic, realistic, detailed, high
    quality".  The full and the demo variant hold the same table and apply
    it alike. *)
Theorem style_preset_appends_suffix :
  (forall prompt preset,
     In preset App.style_choices -> preset <> utf8 "None" ->
     exists rest,
       App.style_prompts !! preset = Some (utf8 ", " ++ rest)
       /\ App.apply_style_preset prompt preset = prompt ++ utf8 ", " ++ rest)
  /\ App.apply_style_preset (utf8 "X") (utf8 "📸 Photorealistic")
     = utf8 "X, photorealistic, realistic, detailed, high quality"
  /\ App.style_prompts !! utf8 "📸 Photorealistic"
     = Some (utf8 ", photorealistic, realistic, detailed, high quality")
  /\ Vercel.style_prompts = App.style_prompts
  /\ (forall prompt preset,
        Vercel.apply_style_preset prompt preset
        = App.apply_style_preset prompt preset).
Proof.
  split; [|split; [vm_compute; reflexivity|split; [vm_compute; reflexivity|]]].
  - intros prompt preset Hin Hne.
    destruct (style_choices_in_table preset Hin Hne) as [rest Hrest].
    exists rest. split; [exact Hrest|].
    rewrite apply_style_preset_lookup by exact Hne. now rewrite Hrest.
  - split; [exact style_tables_equal|]. reflexivity.
Qed.

(** The suffix of each of the eight styles, as the table has it. *)
Example style_suffixes :
  map (fun key => App.style_prompts !! key) (tail App.style_choices)
  = map (fun suffix => Some (utf8 suffix))
      [", photorealistic, realistic, detailed, high quality";
       ", artistic, painting style, creative, expressive";
       ", cinematic, dramatic lighting, movie scene, epic";
       ", fantasy art, magical, ethereal, mystical";
       ", science fiction, futuristic, high-tech, cyberpunk";
       ", landscape photography, natural lighting, scenic";
       ", portrait, professional headshot, well-lit face";
       ", vintage style, retro, classic, nostalgic"]%string.
Proof. vm_compute. reflexivity. Qed.

(** A style that is not a key of the table leaves the prompt as it is. *)
Example style_preset_unknown :
  App.apply_style_preset (utf8 "X") (utf8 "Photorealistic") = utf8 "X".
Proof. vm_compute. reflexivity. Qed.

End StylePresets.

(** ** The prompt functions only append *)

Lemma enhance_prompt_prefix p flag : p `prefix_of` App.enhance_prompt p flag.
Proof.
  unfold App.enhance_prompt.
  destruct (negb flag || negb (truthy (strip p))); [reflexivity|].
  cbv zeta. destruct (List.filter _ App.enhancers); [reflexivity|].
  apply prefix_app_r. reflexivity.
Qed.

Lemma apply_style_preset_prefix p preset :
  p `prefix_of` App.apply_style_preset p preset.
Proof.
  unfold App.apply_style_preset.
  destruct (bool_decide _); [|reflexivity].
  destruct (App.style_prompts !! preset); [|reflexivity].
  apply prefix_app_r. reflexivity.
Qed.

(** C10.  The prompt is a prefix of the enhanced prompt, whatever the flag,
    and of the prompt with a style applied, whatever the style, in the full
    and in the demo variant: both functions keep every character of the
    prompt in its place and only add text after it. *)
Theorem prompt_functions_only_append :
  (forall p flag, exists added, App.enhance_prompt p flag = p ++ added)
  /\ (forall p preset, exists added,
        App.apply_style_preset p preset = p ++ added)
  /\ (forall p preset, exists added,
        Vercel.apply_style_preset p preset = p ++ added)
  /\ (forall p preset flag, exists added,
        App.enhance_prompt (App.apply_style_preset p preset) flag
        = p ++ added).
Proof.
  split; [exact enhance_prompt_prefix|].
  split; [exact apply_style_preset_prefix|].
  split; [exact apply_style_preset_prefix|].
  intros p preset flag.
  destruct (apply_style_preset_prefix p preset) as [k1 ->].
  destruct (enhance_prompt_prefix (p ++ k1) flag) as [k2 ->].
  exists (k1 ++ k2). now rewrite app_assoc.
Qed.

(** ** The file system *)

Section FileSystemProperties.
Context {Image : Type}.
Implicit Types fs : gmap str (Os.Node Image).

Lemma makedirs_exist_ok_inr name fs fs' :
  Os.makedirs_exist_ok name fs = inr fs' -> fs' = <[name := Os.Dir]> fs.
Proof.
  unfold Os.makedirs_exist_ok.
  destruct (fs !! name) as [[|content]|] eqn:Hl; intros [= <-].
  - symmetry. now apply insert_id.
  - reflexivity.
Qed.

Lemma save_inr image path fs fs' :
  Os.save image path fs = inr fs' -> fs' = <[path := Os.File image]> fs.
Proof.
  unfold Os.save.
  destruct (fs !! path) as [[|content]|]; intros [= <-]; reflexivity.
Qed.

(** The directory is made, or found, unless a file has its name. *)
Lemma makedirs_exist_ok_not_file name fs :
  (forall content, fs !! name <> Some (Os.File content)) ->
  Os.makedirs_exist_ok name fs = inr (<[name := Os.Dir]> fs).
Proof.
  intros Hfile. unfold Os.makedirs_exist_ok.
  destruct (fs !! name) as [[|content]|] eqn:Hl.
  - now rewrite insert_id.
  - now destruct (Hfile content).
  - reflexivity.
Qed.

(** The file is written unless a directory has its name. *)
Lemma save_not_dir image path fs :
  fs !! path <> Some Os.Dir ->
  Os.save image path fs = inr (<[path := Os.File image]> fs).
Proof.
  intros Hdir. unfold Os.save.
  destruct (fs !! path) as [[|content]|]; congruence.
Qed.

Lemma path_join_neq (a b : str) : Os.path_join a b <> a.
Proof.
  unfold Os.path_join. intros Heq.
  apply (f_equal (@length N)) in Heq. rewrite !length_app in Heq.
  change (length (utf8 "/")) with 1%nat in Heq. lia.
Qed.

End FileSystemProperties.

(** ** Dates *)

Lemma digitsb_digits s n : digitsb s n = true -> digits s n.
Proof.
  unfold digitsb, digits. rewrite andb_true_iff, Nat.eqb_eq.
  intros [Hlen Hall]. split; [exact Hlen|].
  rewrite Forall_forall. intros c Hc. apply list_elem_of_In in Hc.
  rewrite forallb_forall in Hall. apply Hall in Hc.
  apply andb_true_iff in Hc as [Hlo Hhi].
  apply N.leb_le in Hlo, Hhi. lia.
Qed.

(** A field below the bound is printed on [width] digits when every number
    below the bound is: the numbers are tried one by one. *)
Lemma zero_pad_digits width bound n :
  forallb (fun k => digitsb (zero_pad width (N.of_nat k)) width)
    (seq 0 bound) = true ->
  (n < N.of_nat bound)%N -> digits (zero_pad width n) width.
Proof.
  intros Hall Hn. rewrite forallb_forall in Hall.
  specialize (Hall (N.to_nat n)). rewrite N2Nat.id in Hall.
  apply digitsb_digits, Hall, in_seq. lia.
Qed.

Lemma zero_pad_2_digits n : (n < 100)%N -> digits (zero_pad 2 n) 2.
Proof. apply (zero_pad_digits 2 100). vm_compute. reflexivity. Qed.

Lemma zero_pad_4_digits n : (n < 10000)%N -> digits (zero_pad 4 n) 4.
Proof.
  apply (zero_pad_digits 4 (N.to_nat 10000)). vm_compute. reflexivity.
Qed.

Lemma digits_app s1 n1 s2 n2 :
  digits s1 n1 -> digits s2 n2 -> digits (s1 ++ s2) (n1 + n2).
Proof.
  intros [Hl1 Hd1] [Hl2 Hd2]. split.
  - rewrite length_app. lia.
  - apply Forall_app. now split.
Qed.

(** The time stamp of a calendar date: eight digits, an underscore, six
    digits. *)
Lemma strftime_Ymd_HMS_shape dt :
  calendar_date dt ->
  exists ymd hms,
    strftime_Ymd_HMS dt = ymd ++ utf8 "_" ++ hms
    /\ digits ymd 8 /\ digits hms 6.
Proof.
  intros (Hy & Hm & Hd & HH & HM & HS).
  exists (zero_pad 4 (year dt) ++ zero_pad 2 (month dt) ++ zero_pad 2 (day dt)).
  exists (zero_pad 2 (hour dt) ++ zero_pad 2 (minute dt)
          ++ zero_pad 2 (second dt)).
  split; [unfold strftime_Ymd_HMS; now rewrite <- !app_assoc|].
  split.
  - apply (digits_app _ 4 _ 4); [apply zero_pad_4_digits; lia|].
    apply (digits_app _ 2 _ 2); apply zero_pad_2_digits; lia.
  - apply (digits_app _ 2 _ 4); [apply zero_pad_2_digits; lia|].
    apply (digits_app _ 2 _ 2); apply zero_pad_2_digits; lia.
Qed.






(** ** The generation handler *)

Section HandlerProperties.
Context `{App.Externals}.
Import App.

Local Opaque utf8 str_of_int strftime_Ymd_HMS Os.path_join
  Os.makedirs_exist_ok Os.save.

Lemma truthy_match (s : str) :
  (if truthy s then Some s else None)
  = match s with [] => None | _ :: _ => Some s end.
Proof. now destruct s. Qed.

(** [manual_seed] takes the numbers of 64 bits, signed or unsigned. *)
Lemma manual_seed_accepts_range s :
  manual_seed_accepts s = bool_decide (- 2 ^ 63 <= s < 2 ^ 64).
Proof.
  unfold manual_seed_accepts. case_bool_decide as Hs.
  - apply andb_true_iff. rewrite Z.leb_le, Z.ltb_lt. exact Hs.
  - apply andb_false_iff. rewrite Z.leb_gt, Z.ltb_ge.
    destruct (Z.le_gt_cases (- 2 ^ 63) s); [right|left]; lia.
Qed.

Lemma seed_accepted_some s :
  seed_accepted (Some s) = manual_seed_accepts s.
Proof. symmetry. apply manual_seed_accepts_range. Qed.

(** Runs the handler on the goal: one case for each outcome of the seeding,
    the draw, the pipeline and the two file operations. *)
Ltac run_handler :=
  unfold generate_image_gradio, generate_image, try_except, self_pipeline,
    torch_manual_seed, torch_randint, time_time, datetime_now, logger_info,
    logger_error, os_makedirs_exist_ok, image_save, update_fs, raise, mbind,
    mret, M_bind, M_ret, request_call, seed_draw, generating_record,
    error_record, seed_refused;
  rewrite <- ?validate_dimension_clamp_dim;
  repeat match goal with
    | Hs : manual_seed_accepts ?s = _ |- context [manual_seed_accepts ?s] =>
        rewrite Hs
    | |- context [manual_seed_accepts ?s] =>
        destruct (manual_seed_accepts s) eqn:?
    end;
  simpl; rewrite ?truthy_match;
  repeat match goal with
    | |- context [randint ?a ?b ?g] =>
        destruct (randint a b g) as [? ?] eqn:?; simpl
    | |- context [pipeline ?c ?g] =>
        destruct (pipeline c g) as [[?|?] ?] eqn:?; simpl
    | |- context [Os.makedirs_exist_ok ?n ?f] =>
        destruct (Os.makedirs_exist_ok n f) as [?|?] eqn:?; simpl
    | |- context [Os.save ?i ?p ?f] =>
        destruct (Os.save i p f) as [?|?] eqn:?; simpl
    end.

(** A seed the generator refuses: seeding raises, the exception is logged
    and leaves [generate_image]; no number is drawn, no clock is read, the
    pipeline is not called and no file is written. *)
Lemma generate_image_seed_refused self prompt negative_prompt width height
    steps guidance_scale s world :
  seed_accepted (Some s) = false ->
  generate_image self prompt negative_prompt width height steps
    guidance_scale (Some s) world
  = (Raised manual_seed_overflow, seed_refused world).
Proof.
  rewrite seed_accepted_some. intros Hs. run_handler. reflexivity.
Qed.

(** The trace of the pipeline after a request whose seed is accepted: one
    call more, with the arguments of the request, made between two readings
    of the clock. *)
Lemma pipeline_calls_after_request self prompt negative_prompt width height
    steps guidance_scale seed world :
  seed_accepted seed = true ->
  let run :=
    generate_image self prompt negative_prompt width height steps
      guidance_scale seed world in
  pipeline_calls run.2
  = pipeline_calls world
    ++ [request_call prompt negative_prompt width height steps guidance_scale
          (match seed with
           | Some s => Some (manual_seed (device self) s)
           | None => None
           end)]
  /\ pipeline_call_clock run.2
     = pipeline_call_clock world ++ [S (clock_reads world)].
Proof.
  destruct seed as [s|]; [rewrite seed_accepted_some|]; intros Hs run;
    subst run; run_handler; split; reflexivity.
Qed.


(** What [generate_image] records of the request when it returns. *)
Lemma generate_image_info self prompt negative_prompt width height steps
    guidance_scale seed world image info world' :
  generate_image self prompt negative_prompt width height steps
    guidance_scale seed world = (Returned (image, info), world') ->
  info_prompt info = prompt
  /\ info_negative_prompt info = negative_prompt
  /\ info_width info = clamp_dim width
  /\ info_height info = clamp_dim height
  /\ info_steps info = steps
  /\ info_guidance_scale info = guidance_scale
  /\ info_seed info = match seed with
                      | Some s => s
                      | None => (seed_draw world).1
                      end
  /\ info_model info = model_id self
  /\ info_device info = device self.
Proof.
  rewrite <- !validate_dimension_clamp_dim.
  destruct seed as [s|]; run_handler; intros [= <- <- <-]; simpl; tauto.
Qed.

(** [generate_image] returns on accepted seeds only. *)
Lemma generate_image_returned_accepted self prompt negative_prompt width
    height steps guidance_scale seed world image info world' :
  generate_image self prompt negative_prompt width height steps
    guidance_scale seed world = (Returned (image, info), world') ->
  seed_accepted seed = true.
Proof.
  destruct seed as [s|]; [|reflexivity].
  destruct (seed_accepted (Some s)) eqn:Hs; [reflexivity|].
  rewrite generate_image_seed_refused by exact Hs. discriminate.
Qed.

(** C1.  The width and the height of every call [generate_image] makes to
    the pipeline, and those the metadata record when it returns, are the
    width and the height of the request clamped to [64, 1024] and then
    rounded down to a multiple of 8, each on its own.  There is one such
    call, or none when the seed of the request is refused.  The normalised
    value of every integer lies in [64, 1024] and is a multiple of 8, and
    2000 and 10 give 1024 and 64. *)
Theorem dimensions_normalized self prompt negative_prompt width height steps
    guidance_scale seed world :
  let run :=
    generate_image self prompt negative_prompt width height steps
      guidance_scale seed world in
  (exists calls,
     pipeline_calls run.2 = pipeline_calls world ++ calls
     /\ length calls = (if seed_accepted seed then 1 else 0)%nat
     /\ Forall (fun call =>
                  call_width call = clamp_dim width
                  /\ call_height call = clamp_dim height) calls)
  /\ match run.1 with
     | Returned (_, info) =>
         info_width info = clamp_dim width
         /\ info_height info = clamp_dim height
     | Raised _ => True
     end
  /\ (forall dim, 64 <= clamp_dim dim <= 1024 /\ clamp_dim dim mod 8 = 0)
  /\ clamp_dim 2000 = 1024
  /\ clamp_dim 10 = 64.
Proof.
  intros run. split; [|split; [|split; [exact clamp_dim_range|]]].
  - destruct (seed_accepted seed) eqn:Hs.
    + eexists. split; [now apply pipeline_calls_after_request|].
      split; [reflexivity|]. repeat constructor.
    + destruct seed as [s|]; [|discriminate Hs]. subst run.
      rewrite generate_image_seed_refused by exact Hs.
      exists []. simpl. rewrite app_nil_r. repeat constructor.
  - destruct run as [[[image info]|e] world'] eqn:Hrun; [|exact I].
    simpl. apply generate_image_info in Hrun. tauto.
  - split; reflexivity.
Qed.


(** C2.  Without a seed, the metadata record the number drawn from the
    default generator, and the pipeline is handed no generator: the number
    recorded seeds nothing. *)
Theorem seed_absent_generator_unseeded self prompt negative_prompt width
    height steps guidance_scale world :
  let run :=
    generate_image self prompt negative_prompt width height steps
      guidance_scale None world in
  (exists call,
     pipeline_calls run.2 = pipeline_calls world ++ [call]
     /\ call_generator call = None)
  /\ match run.1 with
     | Returned (_, info) => info_seed info = (seed_draw world).1
     | Raised _ => True
     end.
Proof.
  intros run. split.
  - eexists. split; [now apply pipeline_calls_after_request|reflexivity].
  - destruct run as [[[image info]|e] world'] eqn:Hrun; [|exact I].
    simpl. apply generate_image_info in Hrun. tauto.
Qed.

(** The number drawn lies in the 32-bit unsigned range. *)
Lemma seed_draw_range `{!ExternalsLaws} world :
  0 <= (seed_draw world).1 < 2 ^ 32.
Proof. unfold seed_draw. apply randint_range. reflexivity. Qed.

(** C5, the full variant.  On a blank prompt the handler returns [None] at
    once: the state is the one it started in, so the pipeline is not called,
    nothing is logged and no file is written, and nothing is raised. *)
Lemma generate_image_gradio_blank prompt negative_prompt style_preset
    width height steps use_enhancer world :
  blank prompt = true ->
  generate_image_gradio prompt negative_prompt style_preset width height
    steps use_enhancer world = (Returned None, world).
Proof.
  intros Hb. unfold generate_image_gradio.
  rewrite guard_blank, Hb. reflexivity.
Qed.

(** X15.  Whatever the request, without a seed or with a seed of 64 bits,
    an exception of the pipeline leaves [generate_image] after one line of
    the log; the pipeline is not called again and no file is written. *)
Lemma generate_image_reraises self prompt negative_prompt width height steps
    guidance_scale seed world e g :
  seed_accepted seed = true ->
  let call :=
    request_call prompt negative_prompt width height steps guidance_scale
      (match seed with
       | Some s => Some (manual_seed (device self) s)
       | None => None
       end) in
  pipeline call (match seed with
                 | Some _ => torch_rng world
                 | None => (seed_draw world).2
                 end) = (inl e, g) ->
  generate_image self prompt negative_prompt width height steps
    guidance_scale seed world
  = (Raised e,
     mkWorld g (S (clock_reads world))
       (log world ++ [generating_record prompt; error_record e])
       (fs world) (pipeline_calls world ++ [call])
       (pipeline_call_clock world ++ [S (clock_reads world)])).
Proof.
  intros Hs call Hraise. subst call. revert Hraise.
  destruct seed as [s|]; [rewrite seed_accepted_some in Hs|];
    run_handler; intros [= <- <-]; now rewrite <- !app_assoc.
Qed.

(** C8.  When the pipeline raises on the call of a request, the exception
    leaves [generate_image], which has logged it; the handler of the
    interface catches it, logs it again and returns [None].  The pipeline
    was called once, and no file was written. *)
Theorem pipeline_failure_yields_no_image prompt negative_prompt style_preset
    width height steps use_enhancer world e g :
  blank prompt = false ->
  let enhanced_prompt :=
    enhance_prompt (apply_style_preset prompt style_preset) use_enhancer in
  let call :=
    request_call enhanced_prompt negative_prompt width height steps
      float_7_5 None in
  pipeline call (seed_draw world).2 = (inl e, g) ->
  let world1 :=
    mkWorld g (S (clock_reads world))
      (log world ++ [generating_record enhanced_prompt; error_record e])
      (fs world) (pipeline_calls world ++ [call])
      (pipeline_call_clock world ++ [S (clock_reads world)]) in
  let world2 :=
    mkWorld g (S (clock_reads world))
      (log world
       ++ [generating_record enhanced_prompt; error_record e; error_record e])
      (fs world) (pipeline_calls world ++ [call])
      (pipeline_call_clock world ++ [S (clock_reads world)]) in
  generate_image generator enhanced_prompt negative_prompt width height steps
    float_7_5 None world = (Raised e, world1)
  /\ generate_image_gradio prompt negative_prompt style_preset width height
       steps use_enhancer world = (Returned None, world2).
Proof.
  intros Hb enhanced_prompt call Hraise world1 world2.
  subst world1 world2 call. revert Hraise.
  unfold generate_image_gradio. rewrite guard_blank, Hb.
  fold enhanced_prompt. generalize enhanced_prompt. clear enhanced_prompt.
  intros enhanced_prompt.
  run_handler; intros [= <- <-].
  rewrite <- !app_assoc. simpl. split; reflexivity.
Qed.

(** [generate_image] returns when its seed is accepted, the pipeline returns
    an image, no file is named "outputs" and no directory has the name of
    the image file. *)
Lemma generate_image_returns self prompt negative_prompt width height steps
    guidance_scale seed world :
  seed_accepted seed = true ->
  let call :=
    request_call prompt negative_prompt width height steps guidance_scale
      (match seed with
       | Some s => Some (manual_seed (device self) s)
       | None => None
       end) in
  let g := match seed with
           | Some _ => torch_rng world
           | None => (seed_draw world).2
           end in
  (exists image, (pipeline call g).1 = inr image) ->
  (forall content, fs world !! utf8 "outputs" <> Some (Os.File content)) ->
  (forall path, path <> utf8 "outputs" -> fs world !! path <> Some Os.Dir) ->
  exists image info world',
    generate_image self prompt negative_prompt width height steps
      guidance_scale seed world = (Returned (image, info), world').
Proof.
  intros Hs call g [image Himage] Hfile Hdir. subst call g. revert Himage.
  pose proof (makedirs_exist_ok_not_file _ _ Hfile) as Hmk.
  assert (Hsave : forall (img : Image) path, path <> utf8 "outputs" ->
    Os.save img path (<[utf8 "outputs" := Os.Dir]> (fs world))
    = inr (<[path := Os.File img]> (<[utf8 "outputs" := Os.Dir]> (fs world)))).
  { intros img path Hne. apply save_not_dir.
    rewrite lookup_insert_ne by congruence. now apply Hdir. }
  destruct seed as [s|]; [rewrite seed_accepted_some in Hs|];
    run_handler; simpl; intros Himage;
    try discriminate Himage; try discriminate Hmk;
    try (eexists _, _, _; reflexivity).
  all: injection Hmk as ->.
  all: match goal with
       | Hs : Os.save _ _ _ = inl _ |- _ =>
           rewrite Hsave in Hs by apply path_join_neq; discriminate Hs
       end.
Qed.


End HandlerProperties.

(** ** The demo variant *)

Section DemoProperties.
Context {Image : Type}.
Implicit Types world : @Vercel.World Image.

Lemma demo_generate_image_gradio_blank prompt negative_prompt style_preset
    width height steps use_enhancer world :
  blank prompt = true ->
  Vercel.generate_image_gradio prompt negative_prompt style_preset width
    height steps use_enhancer world = (None, world).
Proof.
  intros Hb. unfold Vercel.generate_image_gradio.
  now rewrite guard_blank, Hb.
Qed.

(** The message holds the first hundred characters of the prompt it is
    given, between quotes. *)
Lemma demo_message_echo prompt style_preset width height steps :
  exists before after,
    Vercel.demo_message prompt style_preset width height steps
    = before ++ dquote ++ take 100 prompt ++ utf8 "..." ++ dquote ++ after.
Proof.
  exists (newline ++ utf8 "🎨 DreamForge Studio - Web Demo" ++ newline
          ++ newline ++ utf8 "📝 Your prompt: ").
  eexists. unfold Vercel.demo_message.
  rewrite <- !app_assoc. reflexivity.
Qed.

Lemma take_prefix (n : nat) (p s : str) :
  p `prefix_of` s -> take n p `prefix_of` take n s.
Proof.
  intros [k ->]. rewrite take_app. now exists (take (n - length p) k).
Qed.

(** [DemoImageGenerator.generate_image] sleeps two seconds and returns no
    image, with the prompt and two fixed texts. *)
Lemma demo_generate_image_run self prompt world :
  Vercel.generate_image self prompt world
  = ((None,
      Vercel.mkDemoInfo prompt
        (utf8 "Demo mode - actual generation requires GPU resources")
        (utf8 "For full functionality, run locally or use cloud GPU services")),
     Vercel.mkWorld (Vercel.slept world ++ [2]) (Vercel.fs world)).
Proof. reflexivity. Qed.

(** C7, amended.  On a prompt that is not blank the demo handler returns a
    text and no image, and leaves the state as it was: it does not sleep and
    touches no file.  The text holds, between quotes, the first hundred
    characters of the prompt with the style applied, which begin with the
    first hundred characters of the prompt, and so with the whole prompt
    when it has a hundred characters at most.  [generate_image] of the demo
    generator, which the handler does not call, sleeps two seconds, touches
    no file, and returns no image, the prompt under "prompt", and the same
    status and suggestion texts whatever the prompt. *)
Theorem demo_handler_echoes_prompt prompt negative_prompt style_preset width
    height steps use_enhancer world :
  blank prompt = false ->
  let styled := Vercel.apply_style_preset prompt style_preset in
  (exists before after,
     Vercel.generate_image_gradio prompt negative_prompt style_preset width
       height steps use_enhancer world
     = (Some (Vercel.gr_update
                (before ++ dquote ++ take 100 styled ++ utf8 "..." ++ dquote
                 ++ after)),
        world))
  /\ (exists added, take 100 styled = take 100 prompt ++ added)
  /\ ((length prompt <= 100)%nat ->
      exists added, take 100 styled = prompt ++ added)
  /\ (forall self,
        Vercel.generate_image self prompt world
        = ((None,
            {| Vercel.info_prompt := prompt;
               Vercel.info_status :=
                 utf8 "Demo mode - actual generation requires GPU resources";
               Vercel.info_suggestion :=
                 utf8 "For full functionality, run locally or use cloud GPU services"
            |}),
           {| Vercel.slept := Vercel.slept world ++ [2];
              Vercel.fs := Vercel.fs world |})).
Proof.
  intros Hb styled.
  assert (Hpre : take 100 prompt `prefix_of` take 100 styled)
    by apply take_prefix, apply_style_preset_prefix.
  split; [|split; [exact Hpre|split]].
  - unfold Vercel.generate_image_gradio. rewrite guard_blank, Hb. simpl.
    fold styled.
    destruct (demo_message_echo styled style_preset width height steps)
      as (before & after & ->).
    now exists before, after.
  - intros Hlen. now rewrite take_ge in Hpre by exact Hlen.
  - intros self. apply demo_generate_image_run.
Qed.

End DemoProperties.

(** ** The guard on blank prompts *)

(** C5.  On a prompt that is empty or holds white space only, the handler
    of the full variant and the handler of the demo variant return [None] at
    once, and nothing is raised.  The state is the one the handler started
    in: the pipeline was not called, no line was logged and no file was
    written. *)
Theorem blank_prompt_short_circuits `{App.Externals} {DemoImage : Type}
    prompt negative_prompt style_preset width height steps use_enhancer
    (world : App.World) (demo_world : @Vercel.World DemoImage) :
  blank prompt = true ->
  App.generate_image_gradio prompt negative_prompt style_preset width height
    steps use_enhancer world = (App.Returned None, world)
  /\ Vercel.generate_image_gradio prompt negative_prompt style_preset width
       height steps use_enhancer demo_world = (None, demo_world).
Proof.
  intros Hb. split.
  - now apply generate_image_gradio_blank.
  - now apply demo_generate_image_gradio_blank.
Qed.

(** The empty prompt with the style "None", as in the scenario of the
    specification. *)
Example empty_prompt_no_image `{App.Externals} (world : App.World) :
  App.generate_image_gradio [] [] (utf8 "None") 512 512 25 true world
  = (App.Returned None, world).
Proof. reflexivity. Qed.

(** ** Runs on the stand-in *)

Section Runs.
Import App.
#[local] Existing Instance Fake.externals.

(** The scenario of the specification: a width of 2000 and a height of 10
    reach the pipeline, and the metadata, as 1024 and 64. *)
Example dimensions_2000_10 :
  let run :=
    generate_image generator (utf8 "a cat") [] 2000 10 25 float_7_5 None
      Fake.world0 in
  map (fun call => (call_width call, call_height call))
    (pipeline_calls run.2) = [(1024, 64)]
  /\ match run.1 with
     | Returned (_, info) => (info_width info, info_height info) = (1024, 64)
     | Raised _ => False
     end.
Proof. split; vm_compute; reflexivity. Qed.

(** Without a seed the metadata record the number drawn, 41, and the image
    comes from the default generator; handing the recorded 41 back as the
    seed gives another image. *)
Example recorded_seed_does_not_reproduce :
  image_and_seed
    (generate_image generator (utf8 "a cat") [] 512 512 25 float_7_5 None
       Fake.world0).1 = Some (42%N, 41)
  /\ image_and_seed
       (generate_image generator (utf8 "a cat") [] 512 512 25 float_7_5
          (Some 41) Fake.world0).1 = Some (41%N, 41).
Proof. split; vm_compute; reflexivity. Qed.

(** The same seed twice gives the same image and the same seed on record,
    whatever the default generator has come to. *)
Example same_seed_same_image :
  let first :=
    generate_image generator (utf8 "a cat") [] 512 512 25 float_7_5 (Some 42)
      Fake.world0 in
  let second :=
    generate_image generator (utf8 "a cat") [] 512 512 25 float_7_5 (Some 42)
      first.2 in
  image_and_seed first.1 = Some (42%N, 42)
  /\ image_and_seed second.1 = Some (42%N, 42).
Proof. split; vm_compute; reflexivity. Qed.

(** The largest and the smallest seed a generator takes reach the pipeline;
    on the next number up seeding raises, the exception is logged, and the
    pipeline is not called. *)
Example seed_bounds :
  let run seed :=
    generate_image generator (utf8 "a cat") [] 512 512 25 float_7_5
      (Some seed) Fake.world0 in
  map call_generator (pipeline_calls (run (2 ^ 64 - 1)).2)
  = [Some (manual_seed (utf8 "cpu") (2 ^ 64 - 1))]
  /\ map call_generator (pipeline_calls (run (- 2 ^ 63)).2)
     = [Some (manual_seed (utf8 "cpu") (- 2 ^ 63))]
  /\ match (run (2 ^ 64)).1 with
     | Raised e => e = manual_seed_overflow
     | Returned _ => False
     end
  /\ pipeline_calls (run (2 ^ 64)).2 = []
  /\ map message (log (run (2 ^ 64)).2)
     = [utf8 "❌ Error generating image: Overflow when unpacking long"]
  /\ clock_reads (run (2 ^ 64)).2 = 0%nat.
Proof. intros run. subst run. repeat apply conj; vm_compute; reflexivity. Qed.

Lemma blank_prompt_short_circuits_witness :
  generate_image_gradio (utf8 "   ") [] (utf8 "None") 512 512 25 true
    Fake.world0 = (Returned None, Fake.world0)
  /\ Vercel.generate_image_gradio (utf8 "   ") [] (utf8 "None") 512 512 25
       true Fake.demo_world0 = (None, Fake.demo_world0).
Proof. apply blank_prompt_short_circuits. reflexivity. Defined.

Lemma pipeline_failure_yields_no_image_witness :
  let e :=
    Os.mkException (utf8 "ValueError")
      (utf8 "num_inference_steps must be positive") in
  let enhanced := utf8 "a cat, high quality, detailed, professional" in
  generate_image_gradio (utf8 "a cat") [] (utf8 "None") 512 512 0 true
    Fake.world0
  = (Returned None,
     mkWorld 42 1
       [generating_record enhanced; error_record e; error_record e]
       ∅
       [request_call enhanced [] 512 512 0 float_7_5 None]
       [1%nat]).
Proof.
  exact (proj2 (pipeline_failure_yields_no_image (utf8 "a cat") []
                  (utf8 "None") 512 512 0 true Fake.world0 _ _
                  eq_refl eq_refl)).
Defined.



Lemma demo_handler_echoes_prompt_witness :
  exists before after,
    Vercel.generate_image_gradio (utf8 "a cat") [] (utf8 "📸 Photorealistic")
      512 512 25 true Fake.demo_world0
    = (Some (Vercel.gr_update
               (before ++ dquote
                ++ utf8 "a cat, photorealistic, realistic, detailed, high quality"
                ++ utf8 "..." ++ dquote ++ after)),
       Fake.demo_world0).
Proof.
  exact (proj1 (demo_handler_echoes_prompt (utf8 "a cat") []
                  (utf8 "📸 Photorealistic") 512 512 25 true
                  Fake.demo_world0 eq_refl)).
Defined.

(** C7, as it is stated, fails on the demo handler: a prompt of one space is
    not empty and gets no result; on "a cat" the handler has not slept when
    it returns; a prompt of 101 letters is not in the text returned; and the
    status text of the demo generator does not hold the prompt. *)
Lemma demo_handler_counterexample :
  (truthy (utf8 " ") = true
   /\ Vercel.generate_image_gradio (utf8 " ") [] (utf8 "None") 512 512 25
        true Fake.demo_world0 = (None, Fake.demo_world0))
  /\ Vercel.slept
       (Vercel.generate_image_gradio (utf8 "a cat") [] (utf8 "None") 512 512
          25 true Fake.demo_world0).2 = []
  /\ (exists text,
        (Vercel.generate_image_gradio (repeat 97%N 101) [] (utf8 "None") 512
           512 25 true Fake.demo_world0).1 = Some (Vercel.gr_update text)
        /\ contains (repeat 97%N 101) text = false)
  /\ contains (utf8 "a cat")
       (Vercel.info_status
          (Vercel.generate_image Vercel.generator (utf8 "a cat")
             Fake.demo_world0).1.2) = false.
Proof.
  split; [split; reflexivity|]. split; [reflexivity|].
  split; [|vm_compute; reflexivity].
  eexists. split; [reflexivity|]. vm_compute. reflexivity.
Qed.

End Runs.

(** * Further properties *)

(** ** Dimensions *)

(** X2.  The normalisation of a dimension leaves every multiple of 8 from
    64 to 1024 as it is, and so every value of the sliders; normalising
    twice is normalising once; and a larger dimension never gives a smaller
    normalised one. *)
Theorem validate_dimension_fixed_points :
  (forall dim, 64 <= dim <= 1024 -> dim mod 8 = 0 ->
     App.validate_dimension dim = dim)
  /\ (forall dim, slider_value dim -> App.validate_dimension dim = dim)
  /\ (forall dim,
        App.validate_dimension (App.validate_dimension dim)
        = App.validate_dimension dim)
  /\ (forall dim dim', dim <= dim' ->
        App.validate_dimension dim <= App.validate_dimension dim')
  /\ (forall dim, App.validate_dimension dim = dim ->
        64 <= dim <= 1024 /\ dim mod 8 = 0).
Proof.
  assert (Hfix : forall dim, 64 <= dim <= 1024 -> dim mod 8 = 0 ->
            App.validate_dimension dim = dim).
  { intros dim Hr Hm. unfold App.validate_dimension.
    Z.div_mod_to_equations. lia. }
  split; [exact Hfix|]. split; [|split; [|split]].
  - intros dim (k & Hk & ->). apply Hfix; [lia|].
    replace (256 + 64 * k) with ((32 + 8 * k) * 8) by lia.
    apply Z_mod_mult.
  - intros dim. rewrite !validate_dimension_clamp_dim.
    destruct (clamp_dim_range dim) as [Hr Hm].
    rewrite <- (validate_dimension_clamp_dim (clamp_dim dim)).
    now apply Hfix.
  - intros dim dim' Hle. unfold App.validate_dimension.
    Z.div_mod_to_equations. lia.
  - intros dim Heq. rewrite <- Heq, validate_dimension_clamp_dim.
    apply clamp_dim_range.
Qed.

(** ** The enhancer, applied again *)

Section EnhancerAgain.
Import App.

Lemma contains_app_l (e s t : str) :
  contains e s = true -> contains e (s ++ t) = true.
Proof.
  rewrite !contains_infix. intros (pre & post & ->).
  exists pre, (post ++ t). now rewrite <- !app_assoc.
Qed.

Lemma contains_app_r (e s t : str) :
  contains e t = true -> contains e (s ++ t) = true.
Proof.
  rewrite !contains_infix. intros (pre & post & ->).
  exists (s ++ pre), post. now rewrite <- !app_assoc.
Qed.

(** A term that is appended occurs in what is appended. *)
Lemma appended_term_occurs (e : str) (terms : list str) :
  In e terms -> lower e = e ->
  contains e (lower (flat_map (fun t => utf8 ", " ++ t) terms)) = true.
Proof.
  intros Hin Hlow. apply in_split in Hin as (before & after & ->).
  rewrite flat_map_app. cbn [flat_map]. rewrite !lower_app, Hlow.
  apply contains_app_r, contains_app_l, contains_app_r.
  apply contains_infix. exists [], []. now rewrite app_nil_r.
Qed.

Lemma blank_app_l (s t : str) : blank s = false -> blank (s ++ t) = false.
Proof. unfold blank. rewrite forallb_app. now intros ->. Qed.

Lemma In_take {A : Type} (n : nat) (l : list A) (a : A) :
  In a (take n l) -> In a l.
Proof.
  revert n. induction l as [|b l IH]; intros [|n]; simpl; try tauto.
  intros [->|Hin]; [now left|right; eauto].
Qed.

(** If [g] holds only where [f] does, and fails on the first [n] places
    where [f] holds, then [g] holds on [n] places fewer. *)
Lemma filter_length_drop {A : Type} (f g : A -> bool) (n : nat) (l : list A) :
  (forall a, g a = true -> f a = true) ->
  (forall a, In a (take n (List.filter f l)) -> g a = false) ->
  (length (List.filter g l) <= length (List.filter f l) - n)%nat.
Proof.
  intros Himp. revert n. induction l as [|a l IH]; intros n Hfirst.
  - simpl. lia.
  - simpl in *. destruct (f a) eqn:Hf.
    + destruct n as [|n].
      * specialize (IH 0%nat (fun _ (H : In _ []) => match H with end)).
        destruct (g a); simpl; lia.
      * simpl in Hfirst. rewrite (Hfirst a) by now left.
        specialize (IH n (fun b Hb => Hfirst b (or_intror Hb))).
        simpl. lia.
    + destruct (g a) eqn:Hg; [apply Himp in Hg; congruence|].
      now apply IH.
Qed.

Lemma enhance_prompt_missing_terms p :
  blank p = false ->
  enhance_prompt p true
  = p ++ flat_map (fun e => utf8 ", " ++ e) (take 3 (missing_terms p)).
Proof. apply enhance_prompt_missing. Qed.

(** One more application leaves three missing terms fewer. *)
Lemma missing_terms_enhanced p :
  blank p = false ->
  (length (missing_terms (enhance_prompt p true))
   <= length (missing_terms p) - 3)%nat.
Proof.
  intros Hb. rewrite (enhance_prompt_missing_terms p Hb).
  unfold missing_terms at 1 3. apply filter_length_drop.
  - intros e. rewrite !negb_true_iff, lower_app.
    intros Hc. destruct (contains e (lower p)) eqn:Hp; [|reflexivity].
    now rewrite (contains_app_l _ _ _ Hp) in Hc.
  - intros e He. rewrite negb_false_iff, lower_app.
    apply contains_app_r, appended_term_occurs; [exact He|].
    apply enhancers_lower. apply In_take in He.
    unfold missing_terms in He. now apply filter_In in He.
Qed.

Lemma missing_terms_bound p : (length (missing_terms p) <= 7)%nat.
Proof.
  unfold missing_terms.
  etransitivity; [apply filter_length_le|]. reflexivity.
Qed.

Lemma enhance_times_blank n p : blank (enhance_times n p) = blank p.
Proof.
  induction n as [|n IH]; simpl; [reflexivity|].
  destruct (blank (enhance_times n p)) eqn:Hb.
  - rewrite enhance_prompt_blank by exact Hb. now rewrite Hb.
  - rewrite (enhance_prompt_missing_terms _ Hb).
    now rewrite (blank_app_l _ _ Hb).
Qed.

Lemma missing_terms_enhance_times n p :
  blank p = false ->
  (length (missing_terms (enhance_times n p)) <= 7 - 3 * n)%nat.
Proof.
  intros Hb. induction n as [|n IH]; cbn [enhance_times].
  - apply missing_terms_bound.
  - etransitivity; [apply missing_terms_enhanced|lia].
    now rewrite enhance_times_blank.
Qed.

(** X3.  The enhancer comes to rest within three rounds: whatever the
    prompt, once it has been enhanced three times another round returns it
    as it is, and when the prompt is not blank every term of the list then
    occurs in it. *)
Theorem enhance_prompt_settles_in_three p :
  enhance_prompt (enhance_times 3 p) true = enhance_times 3 p
  /\ (blank p = false ->
      forall e, In e enhancers -> occurs_ci e (enhance_times 3 p)).
Proof.
  destruct (blank p) eqn:Hb.
  - split; [|discriminate].
    apply enhance_prompt_blank. now rewrite enhance_times_blank.
  - pose proof (missing_terms_enhance_times 3 p Hb) as Hlen.
    destruct (missing_terms (enhance_times 3 p)) as [|e0 rest] eqn:Hm;
      [|simpl in Hlen; lia].
    split.
    + rewrite enhance_prompt_missing_terms
        by now rewrite enhance_times_blank.
      rewrite Hm. simpl. apply app_nil_r.
    + intros _ e He.
      destruct (contains e (lower (enhance_times 3 p))) eqn:Hc.
      * unfold occurs_ci. rewrite (enhancers_lower e He).
        now apply contains_infix.
      * assert (Hin : In e (missing_terms (enhance_times 3 p))).
        { unfold missing_terms. apply filter_In. now rewrite Hc. }
        rewrite Hm in Hin. destruct Hin.
Qed.

(** Three rounds are needed on a prompt that holds none of the terms. *)
Example enhance_prompt_three_rounds :
  enhance_times 2 (utf8 "a cat") <> enhance_times 3 (utf8 "a cat")
  /\ enhance_times 3 (utf8 "a cat")
     = utf8 "a cat, high quality, detailed, professional"
       ++ utf8 ", artistic, 4k resolution, sharp focus, well-composed".
Proof. split; [|vm_compute; reflexivity]. vm_compute. discriminate. Qed.

End EnhancerAgain.

(** ** The handler of the interface, whatever comes of the request *)

(** The directory cannot be made when a file has its name. *)
Lemma makedirs_exist_ok_file {Image : Type} (name : str)
    (fs : gmap str (Os.Node Image)) (content : Image) :
  fs !! name = Some (Os.File content) ->
  Os.makedirs_exist_ok name fs
  = inl (Os.mkException (utf8 "FileExistsError")
           (utf8 "[Errno 17] File exists: '" ++ name ++ utf8 "'")).
Proof. intros Hfile. unfold Os.makedirs_exist_ok. now rewrite Hfile. Qed.

Lemma makedirs_exist_ok_inr_not_file {Image : Type} (name : str)
    (fs fs' : gmap str (Os.Node Image)) (content : Image) :
  Os.makedirs_exist_ok name fs = inr fs' ->
  fs !! name <> Some (Os.File content).
Proof.
  unfold Os.makedirs_exist_ok.
  destruct (fs !! name) as [[|c]|]; intros Hmk; congruence.
Qed.

Section GradioHandler.
Context `{App.Externals}.
Import App.

Local Opaque utf8 str_of_int strftime_Ymd_HMS Os.path_join
  Os.makedirs_exist_ok Os.save.

(** Runs a request on the goal, as in the section of the handler. *)
Ltac run_request :=
  unfold generate_image, try_except, self_pipeline,
    torch_randint, time_time, datetime_now, logger_info, logger_error,
    os_makedirs_exist_ok, image_save, update_fs, raise, mbind, mret,
    M_bind, M_ret, request_call, seed_draw, generating_record, error_record;
  rewrite <- ?validate_dimension_clamp_dim;
  simpl; rewrite ?truthy_match;
  repeat match goal with
    | |- context [randint ?a ?b ?g] =>
        destruct (randint a b g) as [? ?] eqn:?; simpl
    | |- context [pipeline ?c ?g] =>
        destruct (pipeline c g) as [[?|?] ?] eqn:?; simpl
    | |- context [Os.makedirs_exist_ok ?n ?f] =>
        destruct (Os.makedirs_exist_ok n f) as [?|?] eqn:?; simpl
    | |- context [Os.save ?i ?p ?f] =>
        destruct (Os.save i p f) as [?|?] eqn:?; simpl
    end.

Lemma styled_enhanced_not_blank prompt style_preset use_enhancer :
  blank prompt = false ->
  blank (enhance_prompt (apply_style_preset prompt style_preset)
           use_enhancer) = false.
Proof.
  intros Hb.
  destruct (apply_style_preset_prefix prompt style_preset) as [k1 ->].
  destruct (enhance_prompt_prefix (prompt ++ k1) use_enhancer) as [k2 ->].
  rewrite <- app_assoc. now apply blank_app_l.
Qed.

(** X4.  The handler of the interface never raises.  When it returns an
    image, the directory "outputs" is there and holds that image as a file;
    when it returns [None], the files are those there were, with what they
    held. *)
Theorem gradio_handler_image_is_saved prompt negative_prompt style_preset
    width height steps use_enhancer world :
  match
    generate_image_gradio prompt negative_prompt style_preset width height
      steps use_enhancer world
  with
  | (Returned (Some image), world') =>
      fs world' !! utf8 "outputs" = Some Os.Dir
      /\ exists filename,
           fs world' !! Os.path_join (utf8 "outputs") filename
           = Some (Os.File image)
  | (Returned None, world') =>
      forall path content,
        fs world' !! path = Some (Os.File content)
        <-> fs world !! path = Some (Os.File content)
  | (Raised _, _) => False
  end.
Proof.
  unfold generate_image_gradio. rewrite guard_blank.
  destruct (blank prompt).
  - simpl. unfold try_except, mret, M_ret. tauto.
  - generalize (enhance_prompt (apply_style_preset prompt style_preset)
                  use_enhancer).
    intros enhanced_prompt. run_request; try tauto.
    + intros path content.
      match goal with
      | Hm : Os.makedirs_exist_ok _ _ = inr _ |- _ =>
          pose proof (makedirs_exist_ok_inr_not_file _ _ _ content Hm)
            as Hnot;
          apply makedirs_exist_ok_inr in Hm; rewrite Hm
      end.
      rewrite lookup_insert.
      destruct (decide (utf8 "outputs" = path)) as [<-|Hne]; [|tauto].
      split; [discriminate|]. intros Hl. now destruct Hnot.
    + repeat match goal with
        | Hm : Os.makedirs_exist_ok _ _ = inr _ |- _ =>
            apply makedirs_exist_ok_inr in Hm; rewrite Hm
        | Hs : Os.save _ _ _ = inr _ |- _ =>
            apply save_inr in Hs; rewrite Hs
        end.
      split.
      * rewrite lookup_insert_ne by apply path_join_neq.
        apply lookup_insert_eq.
      * eexists. apply lookup_insert_eq.
Qed.

(** X5.  On a blank prompt the handler of the interface does not call the
    pipeline; on any other it calls it once, whatever comes of the call,
    with a prompt that is not blank, a guidance scale of 7.5 and no
    generator: the interface never hands a seed on. *)
Theorem gradio_handler_calls_pipeline prompt negative_prompt style_preset
    width height steps use_enhancer world :
  let enhanced_prompt :=
    enhance_prompt (apply_style_preset prompt style_preset) use_enhancer in
  pipeline_calls
    (generate_image_gradio prompt negative_prompt style_preset width height
       steps use_enhancer world).2
  = pipeline_calls world
    ++ (if blank prompt then []
        else [request_call enhanced_prompt negative_prompt width height steps
                float_7_5 None])
  /\ (blank prompt = false -> blank enhanced_prompt = false).
Proof.
  intros enhanced_prompt. split; [|apply styled_enhanced_not_blank].
  unfold generate_image_gradio. rewrite guard_blank.
  destruct (blank prompt).
  - simpl. unfold try_except, mret, M_ret. simpl. now rewrite app_nil_r.
  - fold enhanced_prompt. generalize enhanced_prompt. clear enhanced_prompt.
    intros enhanced_prompt. run_request; reflexivity.
Qed.

(** X6.  When a file has the name "outputs", a request that is not blank
    ends without an image although the pipeline has made one: the pipeline
    was called, the directory cannot be made, the exception is logged twice,
    and the file system is as it was. *)
Theorem outputs_file_blocks_generation prompt negative_prompt style_preset
    width height steps use_enhancer world content image g :
  blank prompt = false ->
  fs world !! utf8 "outputs" = Some (Os.File content) ->
  let enhanced_prompt :=
    enhance_prompt (apply_style_preset prompt style_preset) use_enhancer in
  let call :=
    request_call enhanced_prompt negative_prompt width height steps
      float_7_5 None in
  pipeline call (seed_draw world).2 = (inr image, g) ->
  let e :=
    Os.mkException (utf8 "FileExistsError")
      (utf8 "[Errno 17] File exists: '" ++ utf8 "outputs" ++ utf8 "'") in
  generate_image_gradio prompt negative_prompt style_preset width height
    steps use_enhancer world
  = (Returned None,
     mkWorld g (S (S (S (clock_reads world))))
       (log world
        ++ [generating_record enhanced_prompt; error_record e; error_record e])
       (fs world) (pipeline_calls world ++ [call])
       (pipeline_call_clock world ++ [S (clock_reads world)])).
Proof.
  intros Hb Hfile enhanced_prompt call Himage e.
  subst call e. revert Himage.
  pose proof (makedirs_exist_ok_file _ _ _ Hfile) as Hmk.
  unfold generate_image_gradio. rewrite guard_blank, Hb.
  fold enhanced_prompt. generalize enhanced_prompt. clear enhanced_prompt.
  intros enhanced_prompt. revert Hmk.
  run_request; intros Hmk [= <- <-]; try discriminate Hmk.
  injection Hmk as ->. now rewrite <- !app_assoc.
Qed.

(** X7.  Without a seed, the seed [generate_image] records when it returns
    is a number from 0 to 2^32 - 1, the range [torch.randint] draws
    from. *)
Theorem seedless_seed_in_range `{!ExternalsLaws} self prompt negative_prompt
    width height steps guidance_scale world image info world' :
  generate_image self prompt negative_prompt width height steps
    guidance_scale None world = (Returned (image, info), world') ->
  0 <= info_seed info < 2 ^ 32.
Proof.
  intros Hrun. apply generate_image_info in Hrun.
  destruct Hrun as (_ & _ & _ & _ & _ & _ & -> & _).
  apply seed_draw_range.
Qed.

End GradioHandler.

(** ** The choice of a port *)

Section PortProperties.
Variable try_bind : Z -> Ports.BindResult.

Lemma range_nil (start stop : Z) : stop <= start -> Ports.range start stop = [].
Proof.
  intros Hle. unfold Ports.range.
  replace (Z.to_nat (stop - start)) with 0%nat by lia. reflexivity.
Qed.

Lemma range_cons (start stop : Z) :
  start < stop -> Ports.range start stop = start :: Ports.range (start + 1) stop.
Proof.
  intros Hlt. unfold Ports.range.
  replace (Z.to_nat (stop - start)) with (S (Z.to_nat (stop - (start + 1))))
    by lia.
  cbn [seq map]. f_equal; [lia|].
  rewrite <- seq_shift, map_map. apply map_ext. intros i. lia.
Qed.

(** The loop over a range, by the number of ports left. *)
Lemma find_free_port_loop_range (n : nat) (start stop : Z) :
  Z.to_nat (stop - start) = n ->
  match Ports.find_free_port_loop try_bind (Ports.range start stop) with
  | inr (Some port) =>
      start <= port < stop
      /\ try_bind port = Ports.Bound
      /\ forall q, start <= q < port -> try_bind q = Ports.RaisesOSError
  | inr None =>
      forall q, start <= q < stop -> try_bind q = Ports.RaisesOSError
  | inl e =>
      exists port,
        start <= port < stop
        /\ try_bind port = Ports.RaisesOther e
        /\ forall q, start <= q < port -> try_bind q = Ports.RaisesOSError
  end.
Proof.
  revert start. induction n as [|n IH]; intros start Hn.
  - rewrite range_nil by lia. simpl. intros q Hq. lia.
  - rewrite range_cons by lia. simpl.
    destruct (try_bind start) as [| |e] eqn:Hs.
    + split; [lia|]. split; [exact Hs|]. intros q Hq. lia.
    + specialize (IH (start + 1) ltac:(lia)).
      destruct (Ports.find_free_port_loop try_bind
                  (Ports.range (start + 1) stop)) as [e|[port|]].
      * destruct IH as (port & Hr & Hp & Hbefore). exists port.
        split; [lia|]. split; [exact Hp|]. intros q Hq.
        destruct (Z.eq_dec q start) as [->|Hne]; [exact Hs|].
        apply Hbefore. lia.
      * destruct IH as (Hr & Hp & Hbefore).
        split; [lia|]. split; [exact Hp|]. intros q Hq.
        destruct (Z.eq_dec q start) as [->|Hne]; [exact Hs|].
        apply Hbefore. lia.
      * intros q Hq.
        destruct (Z.eq_dec q start) as [->|Hne]; [exact Hs|].
        apply IH. lia.
    + exists start. split; [lia|]. split; [exact Hs|]. intros q Hq. lia.
Qed.

(** X8.  The port [find_free_port] returns is the lowest port of the range
    that can be bound: it lies between the two bounds, binding it succeeds,
    and binding each port below it raised an [OSError]. *)
Theorem find_free_port_lowest start_port max_port port :
  Ports.find_free_port try_bind start_port max_port = inr (Some port) ->
  start_port <= port <= max_port
  /\ try_bind port = Ports.Bound
  /\ forall q, start_port <= q < port -> try_bind q = Ports.RaisesOSError.
Proof.
  unfold Ports.find_free_port. intros Hfound.
  pose proof (find_free_port_loop_range _ start_port (max_port + 1) eq_refl)
    as Hloop.
  rewrite Hfound in Hloop. destruct Hloop as (Hr & Hp & Hbefore).
  split; [lia|]. split; [exact Hp|exact Hbefore].
Qed.

(** X9.  [find_free_port] returns [None] exactly when binding raises an
    [OSError] on every port of the range, and so on an empty range; an
    exception of another kind leaves the function on the first port that
    raises it. *)
Theorem find_free_port_none start_port max_port :
  (Ports.find_free_port try_bind start_port max_port = inr None
   <-> forall q, start_port <= q <= max_port ->
         try_bind q = Ports.RaisesOSError)
  /\ (max_port < start_port ->
      Ports.find_free_port try_bind start_port max_port = inr None)
  /\ (forall e,
        Ports.find_free_port try_bind start_port max_port = inl e ->
        exists port,
          start_port <= port <= max_port
          /\ try_bind port = Ports.RaisesOther e
          /\ forall q, start_port <= q < port ->
               try_bind q = Ports.RaisesOSError).
Proof.
  unfold Ports.find_free_port.
  pose proof (find_free_port_loop_range _ start_port (max_port + 1) eq_refl)
    as Hloop.
  split; [|split].
  - split.
    + intros Hnone. rewrite Hnone in Hloop. intros q Hq. apply Hloop. lia.
    + intros Hall.
      destruct (Ports.find_free_port_loop try_bind
                  (Ports.range start_port (max_port + 1))) as [e|[port|]].
      * destruct Hloop as (port & Hr & Hp & _).
        rewrite Hall in Hp by lia. discriminate.
      * destruct Hloop as (Hr & Hp & _).
        rewrite Hall in Hp by lia. discriminate.
      * reflexivity.
  - intros Hempty. now rewrite range_nil by lia.
  - intros e He. rewrite He in Hloop.
    destruct Hloop as (port & Hr & Hp & Hbefore).
    exists port. split; [lia|]. now split.
Qed.

(** X10.  The port the interface is launched on lies between 7860 and
    7870.  It is the lowest of these that can be bound, and then the two
    lines are printed, the first of which calls port 7860 busy even when
    7860 is the port found; when none can be bound it is 7860 all the same,
    and nothing is printed. *)
Theorem available_port_choice port printed :
  Ports.available_port try_bind = inr (port, printed) ->
  7860 <= port <= 7870
  /\ (forall q, 7860 <= q < port -> try_bind q = Ports.RaisesOSError)
  /\ (try_bind port = Ports.Bound
      /\ printed
         = [utf8 "🔄 Port 7860 busy, using port " ++ str_of_int port;
            utf8 "📱 Updated URL: http://localhost:" ++ str_of_int port]
      \/ port = 7860
         /\ printed = []
         /\ forall q, 7860 <= q <= 7870 ->
              try_bind q = Ports.RaisesOSError).
Proof.
  unfold Ports.available_port, Ports.find_free_port.
  pose proof (find_free_port_loop_range _ 7860 (7870 + 1) eq_refl) as Hloop.
  destruct (Ports.find_free_port_loop try_bind (Ports.range 7860 (7870 + 1)))
    as [e|[found|]]; [discriminate| |].
  - destruct Hloop as (Hr & Hp & Hbefore).
    destruct (found =? 0) eqn:Hz; [lia|].
    intros [= <- <-]. split; [lia|]. split; [exact Hbefore|].
    left. now split.
  - intros [= <- <-]. split; [lia|]. split; [intros q Hq; lia|].
    right. split; [reflexivity|]. split; [reflexivity|].
    intros q Hq. apply Hloop. lia.
Qed.

End PortProperties.

(** ** Loading the model *)

Section LoaderProperties.
Context `{Loader.Diffusers}.
Import Loader.

Local Opaque utf8.

Ltac unfold_load :=
  unfold load_model, try_enable, try_except, on_self_pipeline,
    call_from_pretrained, set_self_pipeline, logger, raise, mbind, mret,
    L_bind, L_ret, load_dtype, load_variant in *;
  simpl in *.

Ltac run_load :=
  repeat match goal with
    | |- context [from_pretrained ?m ?d ?v] =>
        destruct (from_pretrained m d v) as [?|?] eqn:?; simpl in *
    | |- context [scheduler_from_config ?p] =>
        destruct (scheduler_from_config p) as [? [?|]] eqn:?; simpl in *
    | |- context [to ?d ?p] =>
        destruct (to d p) as [? [?|]] eqn:?; simpl in *
    | |- context [enable_attention_slicing ?p] =>
        destruct (enable_attention_slicing p) as [? [?|]] eqn:?; simpl in *
    | |- context [enable_sequential_cpu_offload ?p] =>
        destruct (enable_sequential_cpu_offload p) as [? [?|]] eqn:?;
        simpl in *
    | |- context [enable_xformers_memory_efficient_attention ?p] =>
        destruct (enable_xformers_memory_efficient_attention p)
          as [? [?|]] eqn:?; simpl in *
    | |- context [enable_model_cpu_offload ?p] =>
        destruct (enable_model_cpu_offload p) as [? [?|]] eqn:?; simpl in *
    end.

Lemma records_at_app level (log1 log2 : list App.LogRecord) :
  records_at level (log1 ++ log2)
  = records_at level log1 ++ records_at level log2.
Proof. unfold records_at. apply List.filter_app. Qed.

Lemma cpu_not_cuda : utf8 "cpu" <> utf8 "cuda".
Proof. vm_compute. discriminate. Qed.

Lemma cuda_not_cpu : utf8 "cuda" <> utf8 "cpu".
Proof. vm_compute. discriminate. Qed.

(** X11.  On the cpu, once the model is fetched, given its scheduler and
    moved to the device, [load_model] returns whatever the two
    optimisations do: attention slicing and then sequential offload are
    each tried once, the second also when the first raised, each leaves its
    line or a warning, and the optimisations of the GPU are not tried.  The
    model is fetched in 32-bit floats with no variant. *)
Theorem load_model_on_cpu model_id st pipe0 pipe1 pipe2 :
  from_pretrained model_id float32 None = inr pipe0 ->
  scheduler_from_config pipe0 = (pipe1, None) ->
  to (utf8 "cpu") pipe1 = (pipe2, None) ->
  let slicing := enable_attention_slicing pipe2 in
  let offload := enable_sequential_cpu_offload slicing.1 in
  load_model (App.mkTextToImageGenerator model_id (utf8 "cpu")) st
  = (App.Returned tt,
     mkState
       (log st
        ++ [loading_record (App.mkTextToImageGenerator model_id (utf8 "cpu"));
            optimisation_record
              "✅ Attention slicing enabled for CPU efficiency"
              "⚠️ Could not enable attention slicing: " slicing.2;
            optimisation_record "✅ Sequential CPU offload enabled"
              "⚠️ Could not enable sequential CPU offload: " offload.2;
            App.mkLogRecord App.INFO
              (utf8 "💻 Running on CPU - skipping GPU optimizations");
            loaded_record])
       (Some offload.1)
       (calls st
        ++ [FromPretrained model_id float32 None; SchedulerFromConfig;
            To (utf8 "cpu"); EnableAttentionSlicing;
            EnableSequentialCpuOffload])).
Proof.
  intros Hfp Hsched Hto slicing offload. subst slicing offload.
  unfold_load. unfold loading_record, loaded_record, optimisation_record.
  simpl.
  rewrite (bool_decide_eq_false_2 _ cpu_not_cuda).
  rewrite bool_decide_eq_true_2 by reflexivity.
  rewrite Hfp. simpl. rewrite Hsched. simpl. rewrite Hto. simpl.
  run_load; now rewrite <- !app_assoc.
Qed.

(** X12.  On a GPU, once the model is fetched, given its scheduler and
    moved to the device, [load_model] returns whatever the two
    optimisations do: xformers attention and then model offload are each
    tried once, the second also when the first raised, each leaves its line
    or a warning, and the optimisations of the cpu are not tried.  The model
    is fetched in 16-bit floats, in the variant "fp16". *)
Theorem load_model_on_cuda model_id st pipe0 pipe1 pipe2 :
  from_pretrained model_id float16 (Some (utf8 "fp16")) = inr pipe0 ->
  scheduler_from_config pipe0 = (pipe1, None) ->
  to (utf8 "cuda") pipe1 = (pipe2, None) ->
  let xformers := enable_xformers_memory_efficient_attention pipe2 in
  let offload := enable_model_cpu_offload xformers.1 in
  load_model (App.mkTextToImageGenerator model_id (utf8 "cuda")) st
  = (App.Returned tt,
     mkState
       (log st
        ++ [loading_record (App.mkTextToImageGenerator model_id (utf8 "cuda"));
            optimisation_record
              "✅ xformers memory efficient attention enabled"
              "⚠️ Could not enable xformers: " xformers.2;
            optimisation_record "✅ Model CPU offload enabled"
              "⚠️ Could not enable CPU offload: " offload.2;
            loaded_record])
       (Some offload.1)
       (calls st
        ++ [FromPretrained model_id float16 (Some (utf8 "fp16"));
            SchedulerFromConfig; To (utf8 "cuda");
            EnableXformersMemoryEfficientAttention; EnableModelCpuOffload])).
Proof.
  intros Hfp Hsched Hto xformers offload. subst xformers offload.
  unfold_load. unfold loading_record, loaded_record, optimisation_record.
  simpl.
  rewrite (bool_decide_eq_false_2 _ cuda_not_cpu).
  rewrite bool_decide_eq_true_2 by reflexivity.
  rewrite Hfp. simpl. rewrite Hsched. simpl. rewrite Hto. simpl.
  run_load; now rewrite <- !app_assoc.
Qed.

(** What the log and the object hold when [load_model] has returned, and
    when it has raised. *)
Lemma load_model_outcome self st :
  match load_model self st with
  | (App.Returned _, st') =>
      is_Some (self_pipeline st') /\ last (log st') = Some loaded_record
  | (App.Raised e, st') =>
      last (log st') = Some (load_error_record e)
      /\ exists done,
           calls st' = calls st ++ done
           /\ done `prefix_of`
                [FromPretrained (App.model_id self) (load_dtype self)
                   (load_variant self);
                 SchedulerFromConfig; To (App.device self)]
  end.
Proof.
  unfold_load. unfold loaded_record, load_error_record.
  assert (Hdone : forall (done : list LibraryCall) k,
            calls st ++ done ++ k = (calls st ++ done) ++ k)
    by (intros; apply app_assoc).
  destruct (bool_decide (App.device self = utf8 "cuda"));
    destruct (bool_decide (App.device self = utf8 "cpu"));
    run_load;
    try (split; [eauto|apply last_snoc]);
    (split; [apply last_snoc|]);
    rewrite <- ?app_assoc; simpl; eexists; (split; [reflexivity|]).
  all: try (now eexists [_; _]).
  all: try (now eexists [_]).
  all: try (now exists []).
Qed.


(** X14.  An object that [__init__] returns has its model loaded: the
    diffusers library was there, the device is "cuda" or "cpu" as torch
    finds it, the pipeline is set, and the last line of the log says that
    the model is loaded.  When [__init__] raises, either the library is
    missing, and it raises an [ImportError] before it logs or loads
    anything, or the loading failed and the error is the last line of the
    log. *)
Theorem init_loaded_or_raises model_id st :
  match init model_id st with
  | (App.Returned self, st') =>
      DIFFUSERS_AVAILABLE = true
      /\ App.model_id self = model_id
      /\ App.device self
         = (if cuda_is_available then utf8 "cuda" else utf8 "cpu")
      /\ is_Some (self_pipeline st')
      /\ last (log st') = Some loaded_record
  | (App.Raised e, st') =>
      DIFFUSERS_AVAILABLE = false
      /\ e = Os.mkException (utf8 "ImportError")
               (utf8 "Diffusers library not available: " ++ IMPORT_ERROR)
      /\ st' = st
      \/ DIFFUSERS_AVAILABLE = true
         /\ last (log st') = Some (load_error_record e)
  end.
Proof.
  unfold init. destruct DIFFUSERS_AVAILABLE eqn:Havailable; simpl.
  - unfold mbind, mret, L_bind, L_ret, set_self_pipeline. simpl.
    match goal with
    | |- context [load_model ?s ?st0] =>
        pose proof (load_model_outcome s st0) as Hout;
        destruct (load_model s st0) as [[[]|e] st1]
    end.
    + simpl. destruct Hout as [Hpipe Hlast]. repeat split; assumption.
    + right. split; [reflexivity|]. apply Hout.
  - unfold raise. left. repeat split.
Qed.

End LoaderProperties.

(** ** Further runs on the stand-ins *)

Section FurtherRuns.
Import App.
#[local] Existing Instance Fake.externals.

Lemma fake_externals_laws : @ExternalsLaws Fake.externals.
Proof.
  constructor. intros low high g Hlt. simpl.
  pose proof (Z.mod_pos_bound g (high - low)). lia.
Qed.

Lemma outputs_file_blocks_generation_witness :
  exists world',
    generate_image_gradio (utf8 "a cat") [] (utf8 "None") 512 512 25 true
      Fake.world_outputs_file
    = (Returned None, world').
Proof.
  eexists.
  apply (outputs_file_blocks_generation (utf8 "a cat") [] (utf8 "None")
           512 512 25 true Fake.world_outputs_file 7%N 42%N 43).
  - reflexivity.
  - vm_compute. reflexivity.
  - vm_compute. reflexivity.
Defined.

Lemma generate_image_reraises_witness :
  exists world',
    generate_image generator (utf8 "a cat") [] 512 512 0 float_7_5 (Some 5)
      Fake.world0
    = (Raised
         (Os.mkException (utf8 "ValueError")
            (utf8 "num_inference_steps must be positive")),
       world').
Proof.
  eexists.
  apply (generate_image_reraises generator (utf8 "a cat") [] 512 512 0
           float_7_5 (Some 5) Fake.world0
           (Os.mkException (utf8 "ValueError")
              (utf8 "num_inference_steps must be positive")) 41).
  - reflexivity.
  - vm_compute. reflexivity.
Defined.

Lemma seedless_seed_in_range_witness :
  exists image info world',
    generate_image generator (utf8 "a cat") [] 512 512 25 float_7_5 None
      Fake.world0
    = (Returned (image, info), world')
    /\ 0 <= info_seed info < 2 ^ 32.
Proof.
  destruct (generate_image_returns generator (utf8 "a cat") [] 512 512 25
              float_7_5 None Fake.world0)
    as (image & info & world' & Hrun).
  - reflexivity.
  - exists 42%N. vm_compute. reflexivity.
  - intros content. unfold Fake.world0. simpl. rewrite lookup_empty.
    discriminate.
  - intros path _. unfold Fake.world0. simpl. rewrite lookup_empty.
    discriminate.
  - exists image, info, world'. split; [exact Hrun|].
    exact (seedless_seed_in_range (H0 := fake_externals_laws)
             _ _ _ _ _ _ _ _ _ _ _ Hrun).
Defined.

Lemma find_free_port_lowest_witness :
  7860 <= 7863 <= 7870
  /\ FakeLoader.taken_below 7863 7863 = Ports.Bound
  /\ forall q, 7860 <= q < 7863 ->
       FakeLoader.taken_below 7863 q = Ports.RaisesOSError.
Proof.
  apply (find_free_port_lowest (FakeLoader.taken_below 7863) 7860 7870 7863).
  vm_compute. reflexivity.
Defined.

Lemma available_port_choice_witness :
  7860 <= 7860 <= 7870
  /\ (forall q, 7860 <= q < 7860 ->
        FakeLoader.taken_below 7860 q = Ports.RaisesOSError)
  /\ (FakeLoader.taken_below 7860 7860 = Ports.Bound
      /\ [utf8 "🔄 Port 7860 busy, using port 7860";
          utf8 "📱 Updated URL: http://localhost:7860"]
         = [utf8 "🔄 Port 7860 busy, using port " ++ str_of_int 7860;
            utf8 "📱 Updated URL: http://localhost:" ++ str_of_int 7860]
      \/ 7860 = 7860
         /\ [utf8 "🔄 Port 7860 busy, using port 7860";
             utf8 "📱 Updated URL: http://localhost:7860"] = []
         /\ forall q, 7860 <= q <= 7870 ->
              FakeLoader.taken_below 7860 q = Ports.RaisesOSError).
Proof.
  apply (available_port_choice (FakeLoader.taken_below 7860) 7860
           [utf8 "🔄 Port 7860 busy, using port 7860";
            utf8 "📱 Updated URL: http://localhost:7860"]).
  vm_compute. reflexivity.
Defined.

End FurtherRuns.

Section LoaderRuns.
Import Loader.

Lemma load_model_on_cpu_witness :
  exists st',
    load_model (H := FakeLoader.diffusers)
      (App.mkTextToImageGenerator (utf8 "runwayml/stable-diffusion-v1-5")
         (utf8 "cpu"))
      FakeLoader.state0
    = (App.Returned tt, st').
Proof.
  eexists.
  apply (load_model_on_cpu (H := FakeLoader.diffusers)
           (utf8 "runwayml/stable-diffusion-v1-5") FakeLoader.state0
           [FromPretrained (utf8 "runwayml/stable-diffusion-v1-5") float32
              None]
           [FromPretrained (utf8 "runwayml/stable-diffusion-v1-5") float32
              None; SchedulerFromConfig]
           [FromPretrained (utf8 "runwayml/stable-diffusion-v1-5") float32
              None; SchedulerFromConfig; To (utf8 "cpu")]);
    reflexivity.
Defined.

Lemma load_model_on_cuda_witness :
  exists st',
    load_model (H := FakeLoader.diffusers)
      (App.mkTextToImageGenerator (utf8 "runwayml/stable-diffusion-v1-5")
         (utf8 "cuda"))
      FakeLoader.state0
    = (App.Returned tt, st').
Proof.
  eexists.
  apply (load_model_on_cuda (H := FakeLoader.diffusers)
           (utf8 "runwayml/stable-diffusion-v1-5") FakeLoader.state0
           [FromPretrained (utf8 "runwayml/stable-diffusion-v1-5") float16
              (Some (utf8 "fp16"))]
           [FromPretrained (utf8 "runwayml/stable-diffusion-v1-5") float16
              (Some (utf8 "fp16")); SchedulerFromConfig]
           [FromPretrained (utf8 "runwayml/stable-diffusion-v1-5") float16
              (Some (utf8 "fp16")); SchedulerFromConfig; To (utf8 "cuda")]);
    reflexivity.
Defined.


(** The module's [generator = TextToImageGenerator()] on the stand-in: the
    object is made, with one warning in the log. *)
Example init_on_stand_in :
  let run :=
    init (H := FakeLoader.diffusers) (utf8 "runwayml/stable-diffusion-v1-5")
      FakeLoader.state0 in
  run.1
  = App.Returned
      (App.mkTextToImageGenerator (utf8 "runwayml/stable-diffusion-v1-5")
         (utf8 "cpu"))
  /\ length (records_at App.WARNING (log run.2)) = 1%nat.
Proof. split; vm_compute; reflexivity. Qed.

End LoaderRuns.
